(** * extract_shas.py: filter a repository tree listing down to the UI files

    The script reads [tree_client.json], walks [data['tree']], keeps the
    entries whose path starts with [src/components/ui/] or is exactly
    [src/lib/utils.ts], and prints the mapping path -> sha as JSON indented by
    two spaces.

    The embedding has three layers:
    - Python values as [json.load] builds them, with the operations the script
      applies to them (subscripting, iteration, [str.startswith], item
      assignment on an insertion-ordered [dict], [json.dumps]);
    - the script itself as an executable function in an error monad
      ([extract], [main]);
    - the script as a line-by-line transition system ([step]) that carries the
      standard output, proved to agree with [main]. *)

From Stdlib Require Import List NArith ZArith Bool String Ascii DecimalString Lia.
Import ListNotations.

Set Warnings "-register-all".

(** ** Python strings *)

(** A [str] is a sequence of Unicode code points. *)
Definition pystr := list N.

(** A source literal, written in the script with ASCII characters only. *)
Definition lit (s : string) : pystr := map N_of_ascii (list_ascii_of_string s).

Definition str_eq_dec : forall a b : pystr, {a = b} + {a <> b} :=
  list_eq_dec N.eq_dec.

(** [a == b] on two strings. *)
Definition str_eqb (a b : pystr) : bool :=
  if str_eq_dec a b then true else false.

(** [s.startswith(prefix)] *)
Fixpoint startswith (s prefix : pystr) {struct prefix} : bool :=
  match prefix with
  | [] => true
  | c :: prefix' =>
      match s with
      | [] => false
      | d :: s' => N.eqb d c && startswith s' prefix'
      end
  end.

(** ** Insertion-ordered dictionaries with string keys *)

(** Bindings in insertion order. A Python [dict] holds each key once; a lookup
    takes the first binding of the key, which in such a list is the only
    one. *)
Definition dict (V : Type) : Type := list (pystr * V).

Section Dict.
Context {V : Type}.

Definition keys (d : dict V) : list pystr := map fst d.

(** [d.get(k)] *)
Fixpoint dict_get (d : dict V) (k : pystr) : option V :=
  match d with
  | [] => None
  | (k', v') :: d' => if str_eqb k' k then Some v' else dict_get d' k
  end.

(** [d[k] = v]: an existing key keeps its position and takes the new value,
    a new key goes to the end. *)
Fixpoint dict_set (d : dict V) (k : pystr) (v : V) : dict V :=
  match d with
  | [] => [(k, v)]
  | (k', v') :: d' =>
      if str_eqb k' k then (k', v) :: d' else (k', v') :: dict_set d' k v
  end.
End Dict.

(** ** Values produced by [json.load] *)

(** A [float] is carried as the text the encoder writes for it
    ([float.__repr__], or [NaN], [Infinity], [-Infinity]); the script never
    computes with numbers. *)
Inductive value : Type :=
| PyNone
| PyBool (b : bool)
| PyInt (z : Z)
| PyFloat (repr : string)
| PyStr (s : pystr)
| PyList (items : list value)
| PyDict (fields : list (pystr * value)).

(** ** Exceptions and the error monad *)

Inductive exn : Type :=
| FileNotFoundError
| JSONDecodeError
| KeyError (k : pystr)
| TypeError
| AttributeError.

Inductive result (A : Type) : Type :=
| Ok (a : A)
| Raise (e : exn).
Arguments Ok {A} a.
Arguments Raise {A} e.

Definition bind {A B : Type} (m : result A) (k : A -> result B) : result B :=
  match m with
  | Ok a => k a
  | Raise e => Raise e
  end.

Notation "x <- m ;; k" := (bind m (fun x => k))
  (at level 61, m at next level, right associativity).

(** The spec's three conditions, and the one each exception falls under. *)
Inductive condition : Type := ResourceNotFound | MalformedInput | SchemaViolation.

Definition classify (e : exn) : condition :=
  match e with
  | FileNotFoundError => ResourceNotFound
  | JSONDecodeError => MalformedInput
  | KeyError _ | TypeError | AttributeError => SchemaViolation
  end.

(** ** The operations the script applies to values *)

(** [x[k]] with [k] a string: only a [dict] can be subscripted by a string. *)
Definition getitem (x : value) (k : pystr) : result value :=
  match x with
  | PyDict d =>
      match dict_get d k with
      | Some v => Ok v
      | None => Raise (KeyError k)
      end
  | _ => Raise TypeError
  end.

(** [for item in x]: a list yields its elements, a dict its keys, a string
    its characters as one-character strings; nothing else is iterable. *)
Definition iter (x : value) : result (list value) :=
  match x with
  | PyList l => Ok l
  | PyDict d => Ok (map (fun kv => PyStr (fst kv)) d)
  | PyStr s => Ok (map (fun c => PyStr [c]) s)
  | _ => Raise TypeError
  end.

(** Looking up [path.startswith]: only a [str] has the method. *)
Definition str_method (path : value) : result pystr :=
  match path with
  | PyStr s => Ok s
  | _ => Raise AttributeError
  end.

(** ** The script *)

Definition ui_prefix : pystr := lit "src/components/ui/".
Definition utils_path : pystr := lit "src/lib/utils.ts".

(** The test of line 9. *)
Definition included (path : pystr) : bool :=
  startswith path ui_prefix || str_eqb path utils_path.

(** Lines 8 to 10, one turn of the loop. *)
Definition loop_body (ui_files : dict value) (item : value) : result (dict value) :=
  path <- getitem item (lit "path") ;;
  p <- str_method path ;;
  if included p
  then sha <- getitem item (lit "sha") ;; Ok (dict_set ui_files p sha)
  else Ok ui_files.

(** Line 7, over the items still to come. *)
Fixpoint for_loop (items : list value) (ui_files : dict value)
  : result (dict value) :=
  match items with
  | [] => Ok ui_files
  | item :: rest =>
      ui_files' <- loop_body ui_files item ;;
      for_loop rest ui_files'
  end.

(** Lines 6 to 10 on a parsed document. *)
Definition extract (data : value) : result (dict value) :=
  tree <- getitem data (lit "tree") ;;
  items <- iter tree ;;
  for_loop items [].

(** ** [json.dumps(obj, indent=2)] *)

Definition quote_char : ascii := "034"%char.
Definition newline_char : ascii := "010"%char.
Definition char (a : ascii) : string := String a EmptyString.

Definition hex_digit (n : N) : ascii :=
  nth (N.to_nat n)
      ["0"; "1"; "2"; "3"; "4"; "5"; "6"; "7";
       "8"; "9"; "a"; "b"; "c"; "d"; "e"; "f"]%char "0"%char.

(** ['\\u{0:04x}'.format(n)], used by the encoder below [0x10000] only. *)
Definition escape_u (n : N) : string :=
  ("\u" ++ String (hex_digit (N.land (N.shiftr n 12) 15))
          (String (hex_digit (N.land (N.shiftr n 8) 15))
          (String (hex_digit (N.land (N.shiftr n 4) 15))
          (String (hex_digit (N.land n 15)) EmptyString))))%string.

(** The replacement the encoder makes for one code point ([ensure_ascii] is
    on by default): printable ASCII stays, backslash and the double quote are
    escaped, the five short escapes are used, a code point outside the basic
    plane becomes a surrogate pair. *)
Definition escape_char (c : N) : string :=
  (if c =? 92 then "\\"
   else if c =? 34 then "\" ++ char quote_char
   else if c =? 8 then "\b"
   else if c =? 12 then "\f"
   else if c =? 10 then "\n"
   else if c =? 13 then "\r"
   else if c =? 9 then "\t"
   else if (32 <=? c) && (c <=? 126) then char (ascii_of_N c)
   else if c <? 65536 then escape_u c
   else let n := c - 65536 in
        escape_u (N.lor 55296 (N.land (N.shiftr n 10) 1023))
        ++ escape_u (N.lor 56320 (N.land n 1023)))%N%string.

Definition encode_basestring_ascii (s : pystr) : string :=
  (char quote_char ++ String.concat "" (map escape_char s) ++ char quote_char)%string.

(** [int.__repr__] *)
Definition int_repr (z : Z) : string := NilZero.string_of_int (Z.to_int z).

Fixpoint indent_by (level : nat) : string :=
  match level with
  | O => ""
  | S level' => ("  " ++ indent_by level')%string
  end.

(** ['\n' + indent * level] *)
Definition newline_indent (level : nat) : string :=
  String newline_char (indent_by level).

(** The encoder at a given indentation level: an empty container is written
    closed on the spot, a non-empty one puts each member on a line of its own,
    one level deeper, separated by commas. *)
Fixpoint iterencode (level : nat) (o : value) : string :=
  match o with
  | PyStr s => encode_basestring_ascii s
  | PyNone => "null"
  | PyBool true => "true"
  | PyBool false => "false"
  | PyInt z => int_repr z
  | PyFloat repr => repr
  | PyList [] => "[]"
  | PyList (x :: xs) =>
      "[" ++ newline_indent (S level) ++ iterencode (S level) x
      ++ (fix more (l : list value) : string :=
            match l with
            | [] => ""
            | y :: l' =>
                "," ++ newline_indent (S level) ++ iterencode (S level) y
                ++ more l'
            end) xs
      ++ newline_indent level ++ "]"
  | PyDict [] => "{}"
  | PyDict ((k, v) :: kvs) =>
      "{" ++ newline_indent (S level)
      ++ encode_basestring_ascii k ++ ": " ++ iterencode (S level) v
      ++ (fix more (l : list (pystr * value)) : string :=
            match l with
            | [] => ""
            | (k', v') :: l' =>
                "," ++ newline_indent (S level)
                ++ encode_basestring_ascii k' ++ ": " ++ iterencode (S level) v'
                ++ more l'
            end) kvs
      ++ newline_indent level ++ "}"
  end%string.

Definition json_dumps (ui_files : dict value) : string :=
  iterencode 0 (PyDict ui_files).

(** ** The whole script as a function *)

(** What lines 3 and 4 find: no file to open, a file [json.load] cannot
    parse, or a parsed document. Parsing itself is not modelled. *)
Inductive source : Type :=
| Missing
| Unparsable
| Parsed (data : value).

Definition load (f : source) : result value :=
  match f with
  | Missing => Raise FileNotFoundError
  | Unparsable => Raise JSONDecodeError
  | Parsed data => Ok data
  end.

(** What a run leaves behind: the text on standard output and the exception
    that ended it, if any. *)
Record outcome : Type := { printed : string; raised : option exn }.

Definition main (f : source) : outcome :=
  match data <- load f ;; extract data with
  | Ok ui_files =>
      {| printed := json_dumps ui_files ++ char newline_char; raised := None |}
  | Raise e => {| printed := ""; raised := Some e |}
  end.

(** ** The script as a transition system *)

(** The points of the script at which control can stand, each with the
    variables live there. *)
Inductive control : Type :=
| AtOpen (f : source)
| AtFor (data : value)
| AtNext (rest : list value) (ui_files : dict value)
| AtIf (item path : value) (rest : list value) (ui_files : dict value)
| AtStore (item : value) (p : pystr) (rest : list value) (ui_files : dict value)
| AtPrint (ui_files : dict value)
| Exit (raised : option exn).

Record machine : Type := { pc : control; stdout : string }.

Definition at_ (c : control) (out : string) : machine :=
  {| pc := c; stdout := out |}.

Inductive step : machine -> machine -> Prop :=
| step_load f data out :
    load f = Ok data ->
    step (at_ (AtOpen f) out) (at_ (AtFor data) out)
| step_load_raise f e out :
    load f = Raise e ->
    step (at_ (AtOpen f) out) (at_ (Exit (Some e)) out)
| step_for data items out :
    (tree <- getitem data (lit "tree") ;; iter tree) = Ok items ->
    step (at_ (AtFor data) out) (at_ (AtNext items []) out)
| step_for_raise data e out :
    (tree <- getitem data (lit "tree") ;; iter tree) = Raise e ->
    step (at_ (AtFor data) out) (at_ (Exit (Some e)) out)
| step_next_done ui_files out :
    step (at_ (AtNext [] ui_files) out) (at_ (AtPrint ui_files) out)
| step_next item rest ui_files path out :
    getitem item (lit "path") = Ok path ->
    step (at_ (AtNext (item :: rest) ui_files) out)
         (at_ (AtIf item path rest ui_files) out)
| step_next_raise item rest ui_files e out :
    getitem item (lit "path") = Raise e ->
    step (at_ (AtNext (item :: rest) ui_files) out) (at_ (Exit (Some e)) out)
| step_if_true item path p rest ui_files out :
    str_method path = Ok p ->
    included p = true ->
    step (at_ (AtIf item path rest ui_files) out)
         (at_ (AtStore item p rest ui_files) out)
| step_if_false item path p rest ui_files out :
    str_method path = Ok p ->
    included p = false ->
    step (at_ (AtIf item path rest ui_files) out)
         (at_ (AtNext rest ui_files) out)
| step_if_raise item path rest ui_files e out :
    str_method path = Raise e ->
    step (at_ (AtIf item path rest ui_files) out) (at_ (Exit (Some e)) out)
| step_store item p rest ui_files sha out :
    getitem item (lit "sha") = Ok sha ->
    step (at_ (AtStore item p rest ui_files) out)
         (at_ (AtNext rest (dict_set ui_files p sha)) out)
| step_store_raise item p rest ui_files e out :
    getitem item (lit "sha") = Raise e ->
    step (at_ (AtStore item p rest ui_files) out) (at_ (Exit (Some e)) out)
| step_print ui_files out :
    step (at_ (AtPrint ui_files) out)
         (at_ (Exit None)
              (out ++ json_dumps ui_files ++ char newline_char)).

Inductive steps : machine -> machine -> Prop :=
| steps_refl m : steps m m
| steps_cons m1 m2 m3 : step m1 m2 -> steps m2 m3 -> steps m1 m3.

Definition init (f : source) : machine := at_ (AtOpen f) "".

Definition halted (m : machine) : bool :=
  match pc m with
  | Exit _ => true
  | _ => false
  end.

(** A complete run of the script on [f] ending in [m]. *)
Definition runs (f : source) (m : machine) : Prop :=
  steps (init f) m /\ halted m = true.

Definition final (o : outcome) : machine :=
  at_ (Exit (raised o)) (printed o).

(** ** Reading a document's entries *)

Definition tree_of (data : value) : option (list value) :=
  match getitem data (lit "tree") with
  | Ok (PyList items) => Some items
  | _ => None
  end.

Definition entry_path (item : value) : option pystr :=
  match getitem item (lit "path") with
  | Ok (PyStr p) => Some p
  | _ => None
  end.

Definition entry_sha (item : value) : option value :=
  match getitem item (lit "sha") with
  | Ok sha => Some sha
  | Raise _ => None
  end.

(** An entry the filter keeps. *)
Definition is_matched (item : value) : bool :=
  match entry_path item with
  | Some p => included p
  | None => false
  end.

(** The input the spec calls valid: an object whose [tree] is a sequence of
    objects, each with a string [path] and a string [sha]. *)
Definition valid_entry (item : value) : bool :=
  match entry_path item, entry_sha item with
  | Some _, Some (PyStr _) => true
  | _, _ => false
  end.

Definition valid_document (data : value) : bool :=
  match tree_of data with
  | Some items => forallb valid_entry items
  | None => false
  end.

(** The (path, sha) pair of an entry, when it has both. *)
Definition entry_pair (item : value) : option (pystr * value) :=
  match entry_path item, entry_sha item with
  | Some p, Some sha => Some (p, sha)
  | _, _ => None
  end.

(** The paths of the entries, in order. *)
Fixpoint paths_of (items : list value) : list pystr :=
  match items with
  | [] => []
  | item :: rest =>
      match entry_path item with
      | Some p => p :: paths_of rest
      | None => paths_of rest
      end
  end.

(** Each element once, at the place of its first occurrence. *)
Fixpoint first_seen (l : list pystr) : list pystr :=
  match l with
  | [] => []
  | x :: l' => x :: filter (fun y => negb (str_eqb x y)) (first_seen l')
  end.

(** One member line of a serialized object at the top level. *)
Definition member (kv : pystr * value) : string :=
  (encode_basestring_ascii (fst kv) ++ ": " ++ iterencode 1 (snd kv))%string.

(** ** Auxiliary notions for the statements *)

(** A turn looks at its entry through the two subscripts only. *)
Definition view (item : value) : result value * result value :=
  (getitem item (lit "path"), getitem item (lit "sha")).

(** An entry the loop gets past: it has a string path and, when matched, a
    sha. *)
Definition runnable_entry (item : value) : bool :=
  match entry_path item with
  | Some p => negb (included p) || match entry_sha item with Some _ => true | None => false end
  | None => false
  end.

Definition mem (k : pystr) (ks : list pystr) : bool := existsb (str_eqb k) ks.

(** What [d[k] = v] does to the key order. *)
Definition add_key (ks : list pystr) (k : pystr) : list pystr :=
  if mem k ks then ks else ks ++ [k].

Definition separator : string := ("," ++ newline_indent 1)%string.

(** The members after the first, each behind its separator. *)
Fixpoint more_members (l : dict value) : string :=
  match l with
  | [] => ""
  | kv :: l' => separator ++ member kv ++ more_members l'
  end%string.

(** An entry with just the two fields, and a document with just [tree]. *)
Definition entry (p s : string) : value :=
  PyDict [(lit "path", PyStr (lit p)); (lit "sha", PyStr (lit s))].

Definition document (items : list value) : value :=
  PyDict [(lit "tree", PyList items)].

(** The listing of the spec's first example. *)
Definition button_entry : value := entry "src/components/ui/button.tsx" "abc123".

Definition example_rest : list value :=
  [entry "src/lib/utils.ts" "def456"; entry "src/pages/index.tsx" "zzz999"].

Definition example_tree : list value := button_entry :: example_rest.

(** A listing in which [src/lib/utils.ts] comes twice, around another entry. *)
Definition duplicate_before : list value :=
  [entry "src/lib/utils.ts" "1111"; entry "src/components/ui/card.tsx" "2222"].

Definition duplicate_last : value := entry "src/lib/utils.ts" "3333".

Definition duplicate_tree : list value := duplicate_before ++ [duplicate_last].

(** The example document again, its entries and the document itself carrying
    fields the script never reads. *)
Definition cluttered_tree : list value :=
  [PyDict [(lit "mode", PyStr (lit "100644"));
           (lit "path", PyStr (lit "src/components/ui/button.tsx"));
           (lit "type", PyStr (lit "blob"));
           (lit "sha", PyStr (lit "abc123"));
           (lit "size", PyInt 1204)];
   PyDict [(lit "sha", PyStr (lit "def456"));
           (lit "path", PyStr (lit "src/lib/utils.ts"))];
   PyDict [(lit "path", PyStr (lit "src/pages/index.tsx"));
           (lit "sha", PyStr (lit "zzz999"));
           (lit "url", PyNone)]].

Definition cluttered_document : value :=
  PyDict [(lit "sha", PyStr (lit "f00d"));
          (lit "tree", PyList cluttered_tree);
          (lit "truncated", PyBool false)].

Definition has_path (item : value) : bool :=
  match entry_path item with
  | Some _ => true
  | None => false
  end.

Definition has_sha (item : value) : bool :=
  match entry_sha item with
  | Some _ => true
  | None => false
  end.

(** A listing whose unmatched entries have no [sha], or an odd one. *)
Definition sparse_tree : list value :=
  [entry "src/components/ui/button.tsx" "abc123";
   PyDict [(lit "path", PyStr (lit "README.md"))];
   PyDict [(lit "path", PyStr (lit "src/pages/index.tsx")); (lit "sha", PyInt 7)]].

(** A listing whose second matched entry has no [sha]. *)
Definition broken_tree : list value :=
  [entry "src/components/ui/button.tsx" "abc123";
   PyDict [(lit "path", PyStr (lit "src/lib/utils.ts"))]].

(** A [tree] that is neither a sequence nor something the loop walks over
    without a turn: a number, a boolean, [None], a non-empty string or a
    non-empty object. *)
Definition tree_rejected (tree : value) : bool :=
  match tree with
  | PyList _ => false
  | PyStr [] => false
  | PyDict [] => false
  | _ => true
  end.

(** The run on [data] prints nothing and ends in an exception the spec files
    under [SchemaViolation]. *)
Definition aborts (data : value) : Prop :=
  exists e, main (Parsed data) = {| printed := ""; raised := Some e |} /\
            classify e = SchemaViolation.

(** A document whose [tree] is an empty object, and one whose [tree] is an
    empty string. *)
Definition tree_empty_object : value := PyDict [(lit "tree", PyDict [])].
Definition tree_empty_string : value := PyDict [(lit "tree", PyStr [])].

(** The bindings of [d2] assigned into [d1] one after the other, each the way
    line 10 assigns ([d1.update(d2)]). *)
Definition update (d1 d2 : dict value) : dict value :=
  fold_left (fun d kv => dict_set d (fst kv) (snd kv)) d2 d1.

(** A binding of the output written back as an entry of a listing. *)
Definition as_entry (kv : pystr * value) : value :=
  PyDict [(lit "path", PyStr (fst kv)); (lit "sha", snd kv)].

(** The exception a turn of the loop ends in on an entry it cannot get past:
    line 8 on something that is not an object or has no [path], line 9 on a
    [path] that is not a string, line 10 on a matched entry without [sha]. *)
Definition entry_error (item : value) : exn :=
  match item with
  | PyDict fields =>
      match dict_get fields (lit "path") with
      | None => KeyError (lit "path")
      | Some (PyStr _) => KeyError (lit "sha")
      | Some _ => AttributeError
      end
  | _ => TypeError
  end.

(** Characters of a text. *)
Fixpoint all_chars (P : ascii -> bool) (s : string) : bool :=
  match s with
  | EmptyString => true
  | String a s' => P a && all_chars P s'
  end.

(** Printable ASCII, from the space to the tilde. *)
Definition printable (a : ascii) : bool :=
  ((32 <=? N_of_ascii a) && (N_of_ascii a <=? 126))%N.

Definition printable_or_newline (a : ascii) : bool :=
  printable a || Ascii.eqb a newline_char.

(** A listing whose path and hash hold an accented letter, a line feed, a
    double quote and a code point outside the basic plane. *)
Definition exotic_document : value :=
  document [PyDict [(lit "path", PyStr (ui_prefix ++ [233; 10; 34; 128512]%N));
                    (lit "sha", PyStr [92; 7; 8364]%N)]].

(** The (path, sha) pairs of the entries that have both, in order. *)
Fixpoint bindings_of (items : list value) : dict value :=
  match items with
  | [] => []
  | item :: rest =>
      match entry_pair item with
      | Some kv => kv :: bindings_of rest
      | None => bindings_of rest
      end
  end.

(** How often a character occurs in a text. *)
Fixpoint count_char (c : ascii) (s : string) : nat :=
  match s with
  | EmptyString => 0
  | String a s' => (if Ascii.eqb a c then 1 else 0) + count_char c s'
  end.

(** * Properties *)

(** ** Strings *)

Lemma str_eqb_reflect (a b : pystr) : reflect (a = b) (str_eqb a b).
Proof.
  unfold str_eqb. destruct (str_eq_dec a b); constructor; assumption.
Qed.

Lemma str_eqb_refl (a : pystr) : str_eqb a a = true.
Proof. destruct (str_eqb_reflect a a); congruence. Qed.

Lemma str_eqb_eq (a b : pystr) : str_eqb a b = true <-> a = b.
Proof. destruct (str_eqb_reflect a b); split; congruence. Qed.

Lemma str_eqb_neq (a b : pystr) : str_eqb a b = false <-> a <> b.
Proof. destruct (str_eqb_reflect a b); split; congruence. Qed.

(** Case analysis on every string comparison in sight. *)
Ltac str_cases :=
  repeat match goal with
    | |- context [str_eqb ?a ?b] =>
        destruct (str_eqb_reflect a b); subst; simpl
    | H : context [str_eqb ?a ?b] |- _ =>
        destruct (str_eqb_reflect a b); subst; simpl in H
    end.

Lemma startswith_spec (s prefix : pystr) :
  startswith s prefix = true <-> exists rest, s = prefix ++ rest.
Proof.
  revert s. induction prefix as [|c prefix IH]; intros s; simpl.
  - split; [intros _; exists s; reflexivity | reflexivity].
  - destruct s as [|d s].
    + split; [discriminate | intros [rest H]; discriminate].
    + rewrite andb_true_iff, N.eqb_eq, IH. split.
      * intros [-> [rest ->]]. exists rest. reflexivity.
      * intros [rest H]. injection H as -> ->. split; [reflexivity | eauto].
Qed.

(** The test of line 9 is the inclusion rule. *)
Lemma included_spec (p : pystr) :
  included p = true <->
  (exists rest, p = ui_prefix ++ rest) \/ p = utils_path.
Proof.
  unfold included. rewrite orb_true_iff, startswith_spec, str_eqb_eq.
  reflexivity.
Qed.

(** ** Dictionaries *)

Section DictFacts.
Context {V : Type}.
Implicit Types (d : dict V) (k : pystr) (v : V).

Lemma dict_get_set d k v k' :
  dict_get (dict_set d k v) k' =
  if str_eqb k k' then Some v else dict_get d k'.
Proof.
  induction d as [|[k0 v0] d IH]; simpl.
  - reflexivity.
  - destruct (str_eqb_reflect k0 k); subst; simpl.
    + destruct (str_eqb k k'); reflexivity.
    + rewrite IH. str_cases; congruence.
Qed.

Lemma dict_get_In d k v : dict_get d k = Some v -> In (k, v) d.
Proof.
  induction d as [|[k0 v0] d IH]; simpl; [discriminate|].
  destruct (str_eqb_reflect k0 k); subst.
  - intros [= ->]. left. reflexivity.
  - intros H. right. exact (IH H).
Qed.

Lemma dict_get_None d k : dict_get d k = None <-> ~ In k (keys d).
Proof.
  induction d as [|[k0 v0] d IH]; simpl.
  - tauto.
  - destruct (str_eqb_reflect k0 k); subst.
    + split; [discriminate | tauto].
    + rewrite IH. tauto.
Qed.

Lemma dict_get_Some d k : In k (keys d) <-> exists v, dict_get d k = Some v.
Proof.
  destruct (dict_get d k) as [v|] eqn:E.
  - split; [eauto|]. intros _. apply dict_get_In in E.
    apply (in_map fst) in E. exact E.
  - apply dict_get_None in E. split; [tauto | intros [v H]; discriminate].
Qed.

Lemma In_dict_get d k v : NoDup (keys d) -> In (k, v) d -> dict_get d k = Some v.
Proof.
  induction d as [|[k0 v0] d IH]; simpl; [tauto|].
  intros Hnd [H|H].
  - injection H as -> ->. rewrite str_eqb_refl. reflexivity.
  - inversion Hnd as [|? ? Hnotin Hnd']; subst.
    destruct (str_eqb_reflect k0 k); subst.
    + exfalso. apply Hnotin. apply (in_map fst) in H. exact H.
    + exact (IH Hnd' H).
Qed.

Lemma keys_set_old d k v : In k (keys d) -> keys (dict_set d k v) = keys d.
Proof.
  induction d as [|[k0 v0] d IH]; simpl; [tauto|].
  intros H. destruct (str_eqb_reflect k0 k); subst; simpl.
  - reflexivity.
  - f_equal. apply IH. destruct H; congruence.
Qed.

Lemma keys_set_new d k v : ~ In k (keys d) -> keys (dict_set d k v) = keys d ++ [k].
Proof.
  induction d as [|[k0 v0] d IH]; simpl; [reflexivity|].
  intros H. destruct (str_eqb_reflect k0 k); subst; simpl.
  - tauto.
  - f_equal. apply IH. tauto.
Qed.

Lemma In_keys_set d k v k' :
  In k' (keys (dict_set d k v)) <-> k' = k \/ In k' (keys d).
Proof.
  destruct (in_dec str_eq_dec k (keys d)) as [H|H].
  - rewrite keys_set_old by exact H. split; [tauto|]. intros [->|]; assumption.
  - rewrite keys_set_new, in_app_iff by exact H. simpl. firstorder.
Qed.

Lemma NoDup_keys_set d k v : NoDup (keys d) -> NoDup (keys (dict_set d k v)).
Proof.
  intros Hnd. destruct (in_dec str_eq_dec k (keys d)) as [H|H].
  - rewrite keys_set_old by exact H. exact Hnd.
  - rewrite keys_set_new by exact H.
    apply NoDup_rev in Hnd. rewrite <- (rev_involutive (keys d ++ [k])).
    apply NoDup_rev. rewrite rev_app_distr. simpl. constructor.
    + rewrite <- in_rev. exact H.
    + exact Hnd.
Qed.
End DictFacts.

(** ** One turn of the loop *)

Lemma loop_body_matched (ui_files : dict value) (item : value) p sha :
  entry_path item = Some p -> included p = true -> entry_sha item = Some sha ->
  loop_body ui_files item = Ok (dict_set ui_files p sha).
Proof.
  unfold entry_path, entry_sha, loop_body. intros Hp Hin Hs.
  destruct (getitem item (lit "path")) as [[]|]; try discriminate.
  injection Hp as ->. simpl. rewrite Hin.
  destruct (getitem item (lit "sha")); [|discriminate].
  injection Hs as ->. reflexivity.
Qed.

Lemma loop_body_skipped (ui_files : dict value) (item : value) p :
  entry_path item = Some p -> included p = false ->
  loop_body ui_files item = Ok ui_files.
Proof.
  unfold entry_path, loop_body. intros Hp Hin.
  destruct (getitem item (lit "path")) as [[]|]; try discriminate.
  injection Hp as ->. simpl. rewrite Hin. reflexivity.
Qed.

Lemma loop_body_no_sha (ui_files : dict value) (item : value) p :
  entry_path item = Some p -> included p = true -> entry_sha item = None ->
  loop_body ui_files item = Raise (KeyError (lit "sha")).
Proof.
  unfold entry_path, entry_sha, loop_body. intros Hp Hin Hs.
  destruct item; try discriminate. unfold getitem in *.
  destruct (dict_get fields (lit "path")) as [[]|]; try discriminate.
  injection Hp as ->. simpl bind. rewrite Hin.
  destruct (dict_get fields (lit "sha")); [discriminate | reflexivity].
Qed.

(** A turn that does not raise either skipped the entry or stored its sha. *)
Lemma loop_body_Ok (ui_files ui_files' : dict value) (item : value) :
  loop_body ui_files item = Ok ui_files' ->
  exists p, entry_path item = Some p /\
    ((included p = false /\ ui_files' = ui_files) \/
     (included p = true /\
      exists sha, entry_sha item = Some sha /\ ui_files' = dict_set ui_files p sha)).
Proof.
  unfold entry_path, entry_sha, loop_body.
  destruct (getitem item (lit "path")) as [[]|]; try discriminate.
  simpl. intros H. exists s. split; [reflexivity|].
  destruct (included s).
  - destruct (getitem item (lit "sha")); [|discriminate].
    simpl in H. injection H as <-. right. eauto.
  - injection H as <-. left. auto.
Qed.

Lemma loop_body_view (ui_files : dict value) (item item' : value) :
  view item = view item' -> loop_body ui_files item = loop_body ui_files item'.
Proof.
  unfold view, loop_body. intros [= -> ->]. reflexivity.
Qed.

(** ** The whole loop *)

Lemma for_loop_app (l1 l2 : list value) (ui_files : dict value) :
  for_loop (l1 ++ l2) ui_files =
  (ui_files' <- for_loop l1 ui_files ;; for_loop l2 ui_files').
Proof.
  revert ui_files. induction l1 as [|item l1 IH]; intros ui_files; simpl.
  - reflexivity.
  - destruct (loop_body ui_files item); simpl; [apply IH | reflexivity].
Qed.

Lemma for_loop_view (l1 l2 : list value) (ui_files : dict value) :
  map view l1 = map view l2 -> for_loop l1 ui_files = for_loop l2 ui_files.
Proof.
  revert l2 ui_files. induction l1 as [|a l1 IH]; intros [|b l2] ui_files;
    cbn [map for_loop]; try discriminate; [reflexivity|].
  intros [= Hp Hs Hrest].
  assert (Hab : view a = view b) by (unfold view; congruence).
  rewrite (loop_body_view ui_files a b Hab).
  destruct (loop_body ui_files b); simpl; [apply IH; exact Hrest | reflexivity].
Qed.

(** Induction over a loop that ran to its end: [P] holds of the initial
    mapping and is carried through each turn. *)
Lemma for_loop_ind (P : list value -> dict value -> dict value -> Prop) :
  (forall ui_files, P [] ui_files ui_files) ->
  (forall item rest ui_files ui_files' out,
      loop_body ui_files item = Ok ui_files' ->
      for_loop rest ui_files' = Ok out ->
      P rest ui_files' out -> P (item :: rest) ui_files out) ->
  forall items ui_files out,
    for_loop items ui_files = Ok out -> P items ui_files out.
Proof.
  intros Hnil Hcons. induction items as [|item rest IH]; simpl; intros ui_files out H.
  - injection H as <-. apply Hnil.
  - destruct (loop_body ui_files item) as [ui_files'|] eqn:E; [|discriminate].
    simpl in H. eapply Hcons; eauto.
Qed.

Lemma valid_entry_runnable (item : value) :
  valid_entry item = true -> runnable_entry item = true.
Proof.
  unfold valid_entry, runnable_entry.
  destruct (entry_path item); [|discriminate].
  destruct (entry_sha item); [|discriminate].
  intros _. apply orb_true_r.
Qed.

Lemma for_loop_runs (items : list value) (ui_files : dict value) :
  forallb runnable_entry items = true ->
  exists out, for_loop items ui_files = Ok out.
Proof.
  revert ui_files. induction items as [|item rest IH]; intros ui_files; simpl.
  - eauto.
  - rewrite andb_true_iff. intros [Hr Hrest].
    unfold runnable_entry in Hr.
    destruct (entry_path item) as [p|] eqn:Hp; [|discriminate].
    destruct (included p) eqn:Hin.
    + destruct (entry_sha item) as [sha|] eqn:Hs; [|discriminate].
      rewrite (loop_body_matched ui_files item p sha Hp Hin Hs). simpl. apply IH, Hrest.
    + rewrite (loop_body_skipped ui_files item p Hp Hin). simpl. apply IH, Hrest.
Qed.

(** ** Keys in order of first encounter *)

Lemma mem_In (k : pystr) (ks : list pystr) : mem k ks = true <-> In k ks.
Proof.
  unfold mem. rewrite existsb_exists. split.
  - intros [x [Hx He]]. apply str_eqb_eq in He. subst. exact Hx.
  - intros H. exists k. split; [exact H | apply str_eqb_refl].
Qed.

Lemma keys_set_add_key (d : dict value) (k : pystr) (v : value) :
  keys (dict_set d k v) = add_key (keys d) k.
Proof.
  unfold add_key. destruct (mem k (keys d)) eqn:E.
  - apply keys_set_old, mem_In, E.
  - apply keys_set_new. rewrite <- mem_In. congruence.
Qed.

Lemma filter_andb (A : Type) (f g : A -> bool) (l : list A) :
  filter f (filter g l) = filter (fun a => g a && f a) l.
Proof.
  induction l as [|a l IH]; simpl; [reflexivity|].
  destruct (g a); simpl; [destruct (f a)|]; rewrite IH; reflexivity.
Qed.

Lemma filter_all (A : Type) (l : list A) : filter (fun _ => true) l = l.
Proof. induction l; simpl; congruence. Qed.

Lemma fold_add_key (l ks : list pystr) :
  fold_left add_key l ks =
  ks ++ filter (fun y => negb (mem y ks)) (first_seen l).
Proof.
  revert ks. induction l as [|x l IH]; intros ks; simpl.
  - symmetry. apply app_nil_r.
  - rewrite IH. unfold add_key. destruct (mem x ks) eqn:E; simpl.
    + f_equal. rewrite filter_andb. apply filter_ext. intros y.
      destruct (str_eqb_reflect x y); subst; simpl; [|reflexivity].
      rewrite E. reflexivity.
    + rewrite <- app_assoc. simpl. do 2 f_equal.
      rewrite filter_andb. apply filter_ext. intros y.
      unfold mem. rewrite existsb_app. simpl. rewrite orb_false_r, negb_orb.
      rewrite andb_comm. f_equal.
      destruct (str_eqb_reflect x y), (str_eqb_reflect y x); congruence.
Qed.

Lemma first_seen_In (l : list pystr) (x : pystr) : In x (first_seen l) <-> In x l.
Proof.
  induction l as [|a l IH]; simpl; [tauto|].
  rewrite filter_In, IH, negb_true_iff, str_eqb_neq.
  destruct (str_eq_dec a x); tauto.
Qed.

Lemma first_seen_NoDup (l : list pystr) : NoDup (first_seen l).
Proof.
  induction l as [|a l IH]; simpl; constructor.
  - rewrite filter_In, negb_true_iff, str_eqb_neq. tauto.
  - apply NoDup_filter, IH.
Qed.

(** The first element of the input stays first, and what follows is the
    first-seen order of the rest without it. *)
Lemma first_seen_head (x : pystr) (l : list pystr) :
  first_seen (x :: l) = x :: remove str_eq_dec x (first_seen l).
Proof.
  simpl. f_equal. induction (first_seen l) as [|y t IH]; simpl; [reflexivity|].
  destruct (str_eqb_reflect x y), (str_eq_dec x y); simpl; congruence.
Qed.

(** ** What the loop leaves in the mapping *)

Lemma for_loop_keys (items : list value) (ui_files out : dict value) :
  for_loop items ui_files = Ok out ->
  keys out = fold_left add_key (filter included (paths_of items)) (keys ui_files).
Proof.
  revert items ui_files out. apply for_loop_ind.
  - reflexivity.
  - intros item rest ui_files ui_files' out Hb _ IH.
    apply loop_body_Ok in Hb. destruct Hb as [p [Hp Hcase]].
    simpl. rewrite Hp. simpl.
    destruct Hcase as [[Hin ->]|[Hin [sha [_ ->]]]]; rewrite Hin.
    + exact IH.
    + simpl. rewrite <- (keys_set_add_key ui_files p sha). exact IH.
Qed.

Lemma for_loop_NoDup (items : list value) (ui_files out : dict value) :
  for_loop items ui_files = Ok out ->
  NoDup (keys ui_files) -> NoDup (keys out).
Proof.
  revert items ui_files out.
  apply (for_loop_ind (fun items ui_files out => NoDup (keys ui_files) -> NoDup (keys out))).
  all: cbv beta.
  - auto.
  - intros item rest ui_files ui_files' out Hb _ IH Hnd. apply IH.
    apply loop_body_Ok in Hb.
    destruct Hb as [p [Hp [[Hin ->]|[Hin [sha [_ ->]]]]]].
    + exact Hnd.
    + apply NoDup_keys_set, Hnd.
Qed.

Lemma for_loop_sound (items : list value) (ui_files out : dict value) :
  for_loop items ui_files = Ok out ->
  forall k, In k (keys out) -> In k (keys ui_files) \/ included k = true.
Proof.
  revert items ui_files out.
  apply (for_loop_ind (fun items ui_files out => forall k, In k (keys out) -> In k (keys ui_files) \/ included k = true)).
  all: cbv beta.
  - auto.
  - intros item rest ui_files ui_files' out Hb _ IH k Hk.
    apply loop_body_Ok in Hb.
    destruct Hb as [p [Hp [[Hin ->]|[Hin [sha [_ ->]]]]]].
    + apply IH, Hk.
    + destruct (IH k Hk) as [H|H]; [|auto].
      apply In_keys_set in H. destruct H as [->|H]; auto.
Qed.

Lemma for_loop_keeps_keys (items : list value) (ui_files out : dict value) :
  for_loop items ui_files = Ok out ->
  forall k, In k (keys ui_files) -> In k (keys out).
Proof.
  revert items ui_files out.
  apply (for_loop_ind (fun items ui_files out => forall k, In k (keys ui_files) -> In k (keys out))).
  all: cbv beta.
  - auto.
  - intros item rest ui_files ui_files' out Hb _ IH k Hk. apply IH.
    apply loop_body_Ok in Hb.
    destruct Hb as [p [Hp [[Hin ->]|[Hin [sha [_ ->]]]]]].
    + exact Hk.
    + apply (In_keys_set ui_files p sha k). auto.
Qed.

(** Entries with other paths leave the binding of [p] alone. *)
Lemma for_loop_untouched (p : pystr) (items : list value) (ui_files out : dict value) :
  for_loop items ui_files = Ok out ->
  (forall item, In item items -> entry_path item <> Some p) ->
  dict_get out p = dict_get ui_files p.
Proof.
  revert items ui_files out.
  apply (for_loop_ind (fun items ui_files out => (forall item, In item items -> entry_path item <> Some p) ->
      dict_get out p = dict_get ui_files p)).
  all: cbv beta.
  - reflexivity.
  - intros item rest ui_files ui_files' out Hb _ IH Hother.
    rewrite IH by (intros it Hit; apply Hother; right; exact Hit).
    apply loop_body_Ok in Hb.
    destruct Hb as [q [Hq [[Hin ->]|[Hin [sha [_ ->]]]]]]; [reflexivity|].
    rewrite dict_get_set. destruct (str_eqb_reflect q p); [|reflexivity].
    subst. exfalso. apply (Hother item); [left; reflexivity | exact Hq].
Qed.

(** The last entry with a matched path decides the value bound to it. *)
Lemma for_loop_last (before after : list value) (item : value) (p : pystr)
      (ui_files out : dict value) :
  for_loop (before ++ item :: after) ui_files = Ok out ->
  entry_path item = Some p -> included p = true ->
  (forall item', In item' after -> entry_path item' <> Some p) ->
  exists sha, entry_sha item = Some sha /\ dict_get out p = Some sha.
Proof.
  intros Hrun Hp Hin Hafter. rewrite for_loop_app in Hrun.
  destruct (for_loop before ui_files) as [ui1|]; [|discriminate].
  simpl in Hrun.
  destruct (loop_body ui1 item) as [ui2|] eqn:Hb; [|discriminate].
  simpl in Hrun. apply loop_body_Ok in Hb.
  destruct Hb as [q [Hq Hcase]]. assert (q = p) by congruence. subst q.
  destruct Hcase as [[Hno _]|[_ [sha [Hs ->]]]]; [congruence|].
  exists sha. split; [exact Hs|].
  rewrite (for_loop_untouched p after _ out Hrun Hafter).
  rewrite dict_get_set, str_eqb_refl. reflexivity.
Qed.

(** ** The transition system *)

Lemma step_deterministic (m m1 m2 : machine) :
  step m m1 -> step m m2 -> m1 = m2.
Proof.
  intros H1 H2.
  inversion H1; subst; inversion H2; subst; congruence.
Qed.

Lemma halted_stuck (m m' : machine) : halted m = true -> ~ step m m'.
Proof.
  intros Hh Hs. inversion Hs; subst; discriminate.
Qed.

Lemma steps_trans (m1 m2 m3 : machine) :
  steps m1 m2 -> steps m2 m3 -> steps m1 m3.
Proof.
  induction 1; intros H23; [exact H23|].
  eapply steps_cons; eauto.
Qed.

Lemma steps_one (m1 m2 : machine) : step m1 m2 -> steps m1 m2.
Proof. intros H. eapply steps_cons; [exact H | apply steps_refl]. Qed.

(** Two runs from one state end in one state. *)
Lemma steps_deterministic (m m1 m2 : machine) :
  steps m m1 -> halted m1 = true ->
  steps m m2 -> halted m2 = true -> m1 = m2.
Proof.
  induction 1 as [m|m m' m1 Hs Hrest IH]; intros Hh1 Hrun2 Hh2.
  - destruct Hrun2 as [|? m'' ? Hs2 _]; [reflexivity|].
    exfalso. exact (halted_stuck _ m'' Hh1 Hs2).
  - destruct Hrun2 as [|? m'' ? Hs2 Hrest2].
    + exfalso. exact (halted_stuck _ m' Hh2 Hs).
    + rewrite <- (step_deterministic _ _ _ Hs Hs2) in Hrest2. auto.
Qed.

(** The loop of the transition system does what [for_loop] computes. *)
Lemma steps_for_loop (items : list value) (ui_files : dict value) (out : string) :
  steps (at_ (AtNext items ui_files) out)
        (match for_loop items ui_files with
         | Ok ui_files' => at_ (AtPrint ui_files') out
         | Raise e => at_ (Exit (Some e)) out
         end).
Proof.
  revert ui_files. induction items as [|item rest IH]; intros ui_files.
  - apply steps_one. constructor.
  - cbn [for_loop]. unfold loop_body.
    destruct (getitem item (lit "path")) as [path|e] eqn:Hpath; cbn [bind].
    2: { apply steps_one. constructor. exact Hpath. }
    eapply steps_cons; [apply step_next; exact Hpath|].
    destruct (str_method path) as [p|e] eqn:Hm; cbn [bind].
    2: { apply steps_one. constructor. exact Hm. }
    destruct (included p) eqn:Hin.
    + eapply steps_cons; [eapply step_if_true; eassumption|].
      destruct (getitem item (lit "sha")) as [sha|e] eqn:Hsha; cbn [bind].
      * eapply steps_cons; [apply step_store; exact Hsha | apply IH].
      * apply steps_one. constructor. exact Hsha.
    + eapply steps_cons; [eapply step_if_false; eassumption | apply IH].
Qed.

(** The function [main] describes a run of the transition system. *)
Lemma main_runs (f : source) : runs f (final (main f)).
Proof.
  split; [|reflexivity]. unfold init, main, final.
  destruct (load f) as [data|e] eqn:Hload; cbn [bind].
  2: { apply steps_one. constructor. exact Hload. }
  eapply steps_cons; [apply step_load; exact Hload|].
  unfold extract.
  destruct (getitem data (lit "tree")) as [tree|e] eqn:Htree; cbn [bind].
  2: { apply steps_one. apply step_for_raise. rewrite Htree. reflexivity. }
  destruct (iter tree) as [items|e] eqn:Hiter; cbn [bind].
  2: { apply steps_one. apply step_for_raise. rewrite Htree. exact Hiter. }
  eapply steps_cons; [apply step_for; rewrite Htree; exact Hiter|].
  eapply steps_trans; [apply steps_for_loop|].
  destruct (for_loop items []) as [ui_files|e]; cbn [printed raised].
  - apply steps_one. apply (step_print ui_files "").
  - apply steps_refl.
Qed.

Lemma runs_main (f : source) (m : machine) : runs f m -> m = final (main f).
Proof.
  intros [Hs Hh]. destruct (main_runs f) as [Hs' Hh'].
  exact (steps_deterministic _ _ _ Hs Hh Hs' Hh').
Qed.

(** Nothing is written before the last step. *)
Lemma steps_silent (m m' : machine) :
  steps m m' -> stdout m = ""%string ->
  stdout m' = ""%string \/ pc m' = Exit None.
Proof.
  induction 1 as [m|m m' m'' Hs Hrest IH]; intros Hout; [left; exact Hout|].
  inversion Hs; subst; cbn [stdout at_] in *; try (apply IH; exact Hout).
  right. inversion Hrest as [|? m3 ? Hs3 _]; subst; [reflexivity|].
  exfalso. refine (halted_stuck _ m3 _ Hs3). reflexivity.
Qed.

(** ** The serialized object *)

Lemma string_app_assoc (a b c : string) : ((a ++ b) ++ c = a ++ (b ++ c))%string.
Proof. induction a as [|x a IH]; simpl; congruence. Qed.

Lemma concat_cons (sep x y : string) (l : list string) :
  String.concat sep (x :: y :: l) = (x ++ sep ++ String.concat sep (y :: l))%string.
Proof. reflexivity. Qed.

Lemma more_members_concat (kv : pystr * value) (l : dict value) (tail : string) :
  (member kv ++ more_members l ++ tail
   = String.concat separator (map member (kv :: l)) ++ tail)%string.
Proof.
  revert kv. induction l as [|kv' l IH]; intros kv.
  - reflexivity.
  - cbn [map]. rewrite concat_cons. cbn [more_members].
    rewrite !string_app_assoc. do 2 f_equal. exact (IH kv').
Qed.

Lemma iterencode_dict (k : pystr) (v : value) (kvs : dict value) :
  iterencode 0 (PyDict ((k, v) :: kvs)) =
  ("{" ++ newline_indent 1 ++ member (k, v) ++ more_members kvs
   ++ newline_indent 0 ++ "}")%string.
Proof.
  cbn [iterencode]. unfold member. cbn [fst snd].
  rewrite !string_app_assoc. do 5 f_equal.
  induction kvs as [|[k' v'] kvs IH]; [reflexivity|].
  cbn [more_members]. unfold separator, member. cbn [fst snd].
  rewrite !string_app_assoc. rewrite IH. reflexivity.
Qed.

(** A non-empty mapping is written as its members in the order of its
    bindings, one per line. *)
Lemma json_dumps_members (ui_files : dict value) :
  json_dumps ui_files =
  match ui_files with
  | [] => "{}"
  | _ :: _ =>
      "{" ++ newline_indent 1
      ++ String.concat separator (map member ui_files)
      ++ newline_indent 0 ++ "}"
  end%string.
Proof.
  destruct ui_files as [|[k v] kvs]; [reflexivity|].
  unfold json_dumps. rewrite iterencode_dict. do 2 f_equal.
  apply more_members_concat.
Qed.

(** ** Documents *)

Lemma tree_of_extract (data : value) (items : list value) :
  tree_of data = Some items -> extract data = for_loop items [].
Proof.
  unfold tree_of, extract.
  destruct (getitem data (lit "tree")) as [[]|]; try discriminate.
  intros [= ->]. reflexivity.
Qed.

Lemma valid_document_tree (data : value) :
  valid_document data = true ->
  exists items, tree_of data = Some items /\ forallb valid_entry items = true.
Proof.
  unfold valid_document. destruct (tree_of data) as [items|]; [|discriminate].
  eauto.
Qed.

Lemma valid_items_runnable (items : list value) :
  forallb valid_entry items = true -> forallb runnable_entry items = true.
Proof.
  rewrite !forallb_forall. intros H item Hin.
  apply valid_entry_runnable, H, Hin.
Qed.

(** A valid document always gets through lines 6 to 10. *)
Lemma valid_document_runs (data : value) (items : list value) :
  valid_document data = true -> tree_of data = Some items ->
  exists ui_files, extract data = Ok ui_files /\ for_loop items [] = Ok ui_files.
Proof.
  intros Hv Ht. destruct (valid_document_tree data Hv) as [items' [Ht' Hall]].
  assert (items' = items) by congruence. subst items'.
  destruct (for_loop_runs items [] (valid_items_runnable items Hall)) as [out Hout].
  exists out. rewrite (tree_of_extract data items Ht). auto.
Qed.

Lemma main_of_extract (data : value) (ui_files : dict value) :
  extract data = Ok ui_files ->
  main (Parsed data) =
  {| printed := json_dumps ui_files ++ char newline_char; raised := None |}.
Proof. unfold main. cbn [load bind]. intros ->. reflexivity. Qed.

Lemma paths_of_In (items : list value) (item : value) (p : pystr) :
  In item items -> entry_path item = Some p -> In p (paths_of items).
Proof.
  induction items as [|a items IH]; simpl; [tauto|].
  intros [->|H] Hp.
  - rewrite Hp. left. reflexivity.
  - destruct (entry_path a); [right|]; auto.
Qed.

(** In a list with an entry at path [p] there is a last such entry. *)
Lemma last_occurrence (p : pystr) (items : list value) (item : value) :
  In item items -> entry_path item = Some p ->
  exists before item' after,
    items = before ++ item' :: after /\ entry_path item' = Some p /\
    forall x, In x after -> entry_path x <> Some p.
Proof.
  revert item. induction items as [|a items IH]; simpl; [tauto|].
  intros item Hin Hp.
  destruct (existsb (fun x => match entry_path x with
                              | Some q => str_eqb q p
                              | None => false
                              end) items) eqn:E.
  - apply existsb_exists in E. destruct E as [x [Hx Hq]].
    destruct (entry_path x) as [q|] eqn:Hxq; [|discriminate].
    apply str_eqb_eq in Hq. subst q.
    destruct (IH x Hx Hxq) as [before [item' [after [-> [Hp' Hlast]]]]].
    exists (a :: before), item', after. auto.
  - assert (Hnone : forall x, In x items -> entry_path x <> Some p).
    { intros x Hx Hxp.
      assert (Hex : existsb (fun x => match entry_path x with
                                      | Some q => str_eqb q p
                                      | None => false
                                      end) items = true).
      { apply existsb_exists. exists x. rewrite Hxp, str_eqb_refl. auto. }
      congruence. }
    destruct Hin as [->|Hin]; [|exfalso; exact (Hnone item Hin Hp)].
    exists [], item, items. auto.
Qed.

Example example_extract :
  extract (document example_tree) =
  Ok [(lit "src/components/ui/button.tsx", PyStr (lit "abc123"));
      (lit "src/lib/utils.ts", PyStr (lit "def456"))].
Proof. reflexivity. Qed.

Example duplicate_extract :
  extract (document duplicate_tree) =
  Ok [(lit "src/lib/utils.ts", PyStr (lit "3333"));
      (lit "src/components/ui/card.tsx", PyStr (lit "2222"))].
Proof. reflexivity. Qed.

(** ** Entries seen through their two fields *)

(** Two valid entries with the same (path, sha) pair look the same to the
    loop, whatever else they carry. *)
Lemma valid_entry_view (a b : value) :
  valid_entry a = true -> valid_entry b = true ->
  entry_pair a = entry_pair b -> view a = view b.
Proof.
  unfold valid_entry, entry_pair, entry_path, entry_sha, view.
  destruct (getitem a (lit "path")) as [[]|]; try discriminate.
  destruct (getitem b (lit "path")) as [[]|]; try discriminate.
  destruct (getitem a (lit "sha")) as [sa|]; try discriminate.
  destruct (getitem b (lit "sha")) as [sb|]; try discriminate.
  intros _ _ [= -> ->]. reflexivity.
Qed.

Lemma valid_items_view (l1 l2 : list value) :
  forallb valid_entry l1 = true -> forallb valid_entry l2 = true ->
  map entry_pair l1 = map entry_pair l2 -> map view l1 = map view l2.
Proof.
  revert l2. induction l1 as [|a l1 IH]; intros [|b l2];
    cbn [map forallb]; try discriminate; [reflexivity|].
  rewrite !andb_true_iff. intros [Ha H1] [Hb H2] [= Hab Hrest].
  f_equal; [apply valid_entry_view; assumption | apply IH; assumption].
Qed.

(** ** Entries the filter passes over *)

(** The loop gives what it gives on the matched entries alone. *)
Lemma for_loop_matched_only (items : list value) (ui_files : dict value) :
  forallb has_path items = true ->
  for_loop items ui_files = for_loop (filter is_matched items) ui_files.
Proof.
  revert ui_files. induction items as [|item rest IH]; intros ui_files;
    cbn [forallb filter for_loop]; [reflexivity|].
  rewrite andb_true_iff. intros [Hp Hrest].
  unfold has_path in Hp. unfold is_matched.
  destruct (entry_path item) as [p|] eqn:Hpath; [|discriminate].
  destruct (included p) eqn:Hin.
  - cbn [for_loop]. destruct (loop_body ui_files item); cbn [bind];
      [apply IH, Hrest | reflexivity].
  - rewrite (loop_body_skipped ui_files item p Hpath Hin). cbn [bind].
    apply IH, Hrest.
Qed.

Lemma runnable_entry_split (item : value) :
  runnable_entry item = has_path item && (negb (is_matched item) || has_sha item).
Proof.
  unfold runnable_entry, has_path, is_matched, has_sha.
  destruct (entry_path item); reflexivity.
Qed.

(** ** Failure *)

(** Whatever lines 6 to 10 raise falls under [SchemaViolation]. *)
Lemma getitem_raise (x : value) (k : pystr) (e : exn) :
  getitem x k = Raise e -> classify e = SchemaViolation.
Proof.
  destruct x; cbn [getitem]; try (intros [= <-]; reflexivity).
  destruct (dict_get fields k); [discriminate | intros [= <-]; reflexivity].
Qed.

Lemma iter_raise (x : value) (e : exn) :
  iter x = Raise e -> classify e = SchemaViolation.
Proof. destruct x; cbn [iter]; intros [= <-] || discriminate; reflexivity. Qed.

Lemma loop_body_raise (ui_files : dict value) (item : value) (e : exn) :
  loop_body ui_files item = Raise e -> classify e = SchemaViolation.
Proof.
  unfold loop_body.
  destruct (getitem item (lit "path")) as [path|e0] eqn:Hpath; cbn [bind].
  2: { intros [= <-]. exact (getitem_raise _ _ _ Hpath). }
  destruct path; cbn [str_method bind]; try (intros [= <-]; reflexivity).
  destruct (included s); [|discriminate].
  destruct (getitem item (lit "sha")) as [sha|e1] eqn:Hsha; cbn [bind];
    [discriminate|].
  intros [= <-]. exact (getitem_raise _ _ _ Hsha).
Qed.

Lemma for_loop_raise (items : list value) (ui_files : dict value) (e : exn) :
  for_loop items ui_files = Raise e -> classify e = SchemaViolation.
Proof.
  revert ui_files. induction items as [|item rest IH]; intros ui_files;
    cbn [for_loop]; [discriminate|].
  destruct (loop_body ui_files item) as [ui_files'|e0] eqn:Hb; cbn [bind].
  - apply IH.
  - intros [= <-]. exact (loop_body_raise _ _ _ Hb).
Qed.

Lemma extract_raise (data : value) (e : exn) :
  extract data = Raise e -> classify e = SchemaViolation.
Proof.
  unfold extract.
  destruct (getitem data (lit "tree")) as [tree|e0] eqn:Ht; cbn [bind].
  2: { intros [= <-]. exact (getitem_raise _ _ _ Ht). }
  destruct (iter tree) as [items|e1] eqn:Hi; cbn [bind].
  - apply for_loop_raise.
  - intros [= <-]. exact (iter_raise _ _ Hi).
Qed.

Lemma extract_raise_aborts (data : value) (e : exn) :
  extract data = Raise e -> aborts data.
Proof.
  intros H. exists e. split; [|exact (extract_raise data e H)].
  unfold main. cbn [load bind]. rewrite H. reflexivity.
Qed.

(** A turn that does not raise had an entry it could run on. *)
Lemma loop_body_Ok_runnable (ui_files ui_files' : dict value) (item : value) :
  loop_body ui_files item = Ok ui_files' -> runnable_entry item = true.
Proof.
  intros H. apply loop_body_Ok in H. unfold runnable_entry.
  destruct H as [p [-> [[-> _]|[-> [sha [-> _]]]]]]; reflexivity.
Qed.

(** An entry without a string [path], or matched and without a [sha], stops
    the loop, at that entry or before. *)
Lemma for_loop_bad_entry (items : list value) (item : value) (ui_files : dict value) :
  In item items -> runnable_entry item = false ->
  exists e, for_loop items ui_files = Raise e.
Proof.
  intros Hin Hbad.
  revert ui_files. induction items as [|a rest IH]; intros ui_files; [destruct Hin|].
  cbn [for_loop]. destruct (loop_body ui_files a) as [ui_files'|e] eqn:Hb;
    cbn [bind]; [|eauto].
  destruct Hin as [->|Hin]; [|apply IH, Hin].
  apply loop_body_Ok_runnable in Hb. congruence.
Qed.

Lemma matched_no_sha_bad (item : value) :
  is_matched item = true -> entry_sha item = None -> runnable_entry item = false.
Proof.
  unfold is_matched, runnable_entry.
  destruct (entry_path item); [|discriminate]. intros -> ->. reflexivity.
Qed.

(** * The claims *)

(** C1 (soundness of the filter): on every valid document the script runs to
    an output mapping, which is what it prints, and every key of that mapping
    starts with the prefix [src/components/ui/] or is exactly
    [src/lib/utils.ts]. *)
Theorem filter_sound (data : value) :
  valid_document data = true ->
  exists ui_files,
    extract data = Ok ui_files /\
    printed (main (Parsed data)) = (json_dumps ui_files ++ char newline_char)%string /\
    forall k, In k (keys ui_files) ->
      (exists rest, k = ui_prefix ++ rest) \/ k = utils_path.
Proof.
  intros Hv. destruct (valid_document_tree data Hv) as [items [Ht _]].
  destruct (valid_document_runs data items Hv Ht) as [out [Hex Hloop]].
  exists out. split; [exact Hex|]. split.
  - rewrite (main_of_extract data out Hex). reflexivity.
  - intros k Hk. apply included_spec.
    destruct (for_loop_sound items [] out Hloop k Hk) as [[]|H]. exact H.
Qed.

Lemma filter_sound_witness :
  valid_document (document example_tree) = true /\
  exists ui_files,
    extract (document example_tree) = Ok ui_files /\
    printed (main (Parsed (document example_tree)))
    = (json_dumps ui_files ++ char newline_char)%string /\
    forall k, In k (keys ui_files) ->
      (exists rest, k = ui_prefix ++ rest) \/ k = utils_path.
Proof.
  split; [reflexivity | apply (filter_sound (document example_tree)); reflexivity].
Defined.

(** C2 (completeness of the filter): on every valid document, every entry of
    [tree] whose path satisfies the inclusion rule has its path as a key of
    the output mapping; the value bound to it is the sha of an entry with that
    path, and when no other entry has the path it is this entry's sha. *)
Theorem filter_complete (data : value) (before after : list value)
        (item : value) (p : pystr) :
  valid_document data = true ->
  tree_of data = Some (before ++ item :: after) ->
  entry_path item = Some p ->
  included p = true ->
  exists ui_files,
    extract data = Ok ui_files /\
    In p (keys ui_files) /\
    (exists item', In item' (before ++ item :: after) /\
                   entry_path item' = Some p /\
                   dict_get ui_files p = entry_sha item') /\
    ((forall other, In other (before ++ after) -> entry_path other <> Some p) ->
     dict_get ui_files p = entry_sha item).
Proof.
  intros Hv Ht Hp Hin.
  destruct (valid_document_runs data _ Hv Ht) as [out [Hex Hloop]].
  exists out. split; [exact Hex|].
  assert (Hitem : In item (before ++ item :: after))
    by (apply in_elt).
  destruct (last_occurrence p _ item Hitem Hp)
    as [before' [item' [after' [Heq [Hp' Hlast]]]]].
  assert (Hloop' := Hloop). rewrite Heq in Hloop'.
  destruct (for_loop_last before' after' item' p [] out Hloop' Hp' Hin Hlast)
    as [sha [Hs Hget]].
  split; [apply dict_get_Some; eauto|]. split.
  - exists item'. rewrite Heq. split; [apply in_elt|].
    split; [exact Hp' | congruence].
  - intros Hother.
    destruct (for_loop_last before after item p [] out Hloop Hp Hin)
      as [sha0 [Hs0 Hget0]]; [|congruence].
    intros x Hx. apply Hother, in_or_app. right. exact Hx.
Qed.

Lemma filter_complete_witness :
  valid_document (document example_tree) = true /\
  tree_of (document example_tree) = Some ([] ++ button_entry :: example_rest) /\
  entry_path button_entry = Some (lit "src/components/ui/button.tsx") /\
  included (lit "src/components/ui/button.tsx") = true /\
  exists ui_files,
    extract (document example_tree) = Ok ui_files /\
    In (lit "src/components/ui/button.tsx") (keys ui_files) /\
    (exists item', In item' ([] ++ button_entry :: example_rest) /\
                   entry_path item' = Some (lit "src/components/ui/button.tsx") /\
                   dict_get ui_files (lit "src/components/ui/button.tsx")
                   = entry_sha item') /\
    ((forall other, In other ([] ++ example_rest) ->
                    entry_path other <> Some (lit "src/components/ui/button.tsx")) ->
     dict_get ui_files (lit "src/components/ui/button.tsx") = entry_sha button_entry).
Proof.
  repeat (split; [reflexivity|]).
  apply (filter_complete (document example_tree) [] example_rest button_entry
                         (lit "src/components/ui/button.tsx")); reflexivity.
Defined.

(** C3 (duplicate paths): on every valid document, a matched path is a key of
    the output mapping exactly once, however often it occurs in [tree], and it
    is bound to the sha of its last occurrence; no other value is bound to
    it. *)
Theorem duplicate_last_wins (data : value) (before after : list value)
        (item : value) (p : pystr) :
  valid_document data = true ->
  tree_of data = Some (before ++ item :: after) ->
  entry_path item = Some p ->
  included p = true ->
  (forall later, In later after -> entry_path later <> Some p) ->
  exists ui_files sha,
    extract data = Ok ui_files /\
    entry_sha item = Some sha /\
    count_occ str_eq_dec (keys ui_files) p = 1 /\
    dict_get ui_files p = Some sha /\
    forall v, In (p, v) ui_files -> v = sha.
Proof.
  intros Hv Ht Hp Hin Hlast.
  destruct (valid_document_runs data _ Hv Ht) as [out [Hex Hloop]].
  destruct (for_loop_last before after item p [] out Hloop Hp Hin Hlast)
    as [sha [Hs Hget]].
  assert (Hnd : NoDup (keys out))
    by (apply (for_loop_NoDup _ [] out Hloop); constructor).
  exists out, sha. repeat split; try assumption.
  - apply NoDup_count_occ'; [exact Hnd|]. apply dict_get_Some. eauto.
  - intros v Hv'. apply (In_dict_get out p v Hnd) in Hv'. congruence.
Qed.

Lemma duplicate_last_wins_witness :
  valid_document (document duplicate_tree) = true /\
  tree_of (document duplicate_tree)
  = Some (duplicate_before ++ duplicate_last :: []) /\
  entry_path duplicate_last = Some utils_path /\
  included utils_path = true /\
  (forall later, In later [] -> entry_path later <> Some utils_path) /\
  exists ui_files sha,
    extract (document duplicate_tree) = Ok ui_files /\
    entry_sha duplicate_last = Some sha /\
    count_occ str_eq_dec (keys ui_files) utils_path = 1 /\
    dict_get ui_files utils_path = Some sha /\
    forall v, In (utils_path, v) ui_files -> v = sha.
Proof.
  repeat (split; [reflexivity|]).
  split; [intros later []|].
  apply (duplicate_last_wins (document duplicate_tree) duplicate_before []
                             duplicate_last utils_path);
    try reflexivity.
  intros later [].
Defined.

(** C4, as stated, fails: here [tree] is present and is not a sequence, yet
    the script raises nothing and prints the empty object. *)
Lemma tree_not_sequence_accepted :
  getitem tree_empty_object (lit "tree") = Ok (PyDict []) /\
  (forall items, PyDict [] <> PyList items) /\
  (forall e, raised (main (Parsed tree_empty_object)) <> Some e) /\
  main (Parsed tree_empty_object) =
  {| printed := ("{}" ++ char newline_char)%string; raised := None |}.
Proof.
  split; [reflexivity|]. split; [discriminate|]. split; [discriminate | reflexivity].
Qed.

(** C4 (amended): the run aborts with a [SchemaViolation], printing nothing,
    when [data['tree']] cannot be read (the field is absent, or the document
    is not an object), when [tree] is a number, a boolean, [None], a
    non-empty string or a non-empty object, and when [tree] is a sequence
    holding an element that is not an object with a string [path] or that is
    matched and has no [sha]; when [tree] is the empty string or the empty
    object the loop has nothing to walk and the script prints the empty
    object. *)
Theorem schema_violation (data : value) :
  (forall e, getitem data (lit "tree") = Raise e -> aborts data) /\
  (forall tree, getitem data (lit "tree") = Ok tree ->
                tree_rejected tree = true -> aborts data) /\
  (forall items item, getitem data (lit "tree") = Ok (PyList items) ->
                      In item items -> runnable_entry item = false ->
                      aborts data) /\
  (forall tree, getitem data (lit "tree") = Ok tree ->
                tree = PyStr [] \/ tree = PyDict [] ->
                main (Parsed data) =
                {| printed := ("{}" ++ char newline_char)%string; raised := None |}).
Proof.
  repeat split.
  - intros e He. apply (extract_raise_aborts data e).
    unfold extract. rewrite He. reflexivity.
  - intros tree Ht Hrej. apply (extract_raise_aborts data TypeError).
    unfold extract. rewrite Ht. cbn [bind].
    destruct tree as [| | | |[|c s]|items|[|[k v] d]]; try discriminate;
      reflexivity.
  - intros items item Ht Hin Hbad.
    destruct (for_loop_bad_entry items item [] Hin Hbad) as [e He].
    apply (extract_raise_aborts data e).
    unfold extract. rewrite Ht. exact He.
  - intros tree Ht [->| ->]; unfold main, extract; cbn [load bind];
      rewrite Ht; reflexivity.
Qed.

Lemma schema_violation_witness :
  getitem (PyDict []) (lit "tree") = Raise (KeyError (lit "tree")) /\
  aborts (PyDict []) /\
  getitem (PyDict [(lit "tree", PyInt 3)]) (lit "tree") = Ok (PyInt 3) /\
  tree_rejected (PyInt 3) = true /\
  aborts (PyDict [(lit "tree", PyInt 3)]) /\
  getitem (document [PyStr (lit "src/lib/utils.ts")]) (lit "tree")
  = Ok (PyList [PyStr (lit "src/lib/utils.ts")]) /\
  runnable_entry (PyStr (lit "src/lib/utils.ts")) = false /\
  aborts (document [PyStr (lit "src/lib/utils.ts")]) /\
  getitem tree_empty_string (lit "tree") = Ok (PyStr []) /\
  main (Parsed tree_empty_string) =
  {| printed := ("{}" ++ char newline_char)%string; raised := None |}.
Proof.
  split; [reflexivity|]. split.
  { apply (proj1 (schema_violation (PyDict [])) (KeyError (lit "tree"))).
    reflexivity. }
  split; [reflexivity|]. split; [reflexivity|]. split.
  { apply (proj1 (proj2 (schema_violation (PyDict [(lit "tree", PyInt 3)])))
                 (PyInt 3)); reflexivity. }
  split; [reflexivity|]. split; [reflexivity|]. split.
  { apply (proj1 (proj2 (proj2
             (schema_violation (document [PyStr (lit "src/lib/utils.ts")]))))
                 [PyStr (lit "src/lib/utils.ts")] (PyStr (lit "src/lib/utils.ts")));
      [reflexivity | left; reflexivity | reflexivity]. }
  split; [reflexivity|].
  apply (proj2 (proj2 (proj2 (schema_violation tree_empty_string))) (PyStr []));
    [reflexivity | left; reflexivity].
Defined.

(** C5 (order preservation): on every valid document the keys of the output
    mapping stand in the order in which the matched paths are first met in
    [tree], each once; the serialized object lists its members in that same
    order, nothing being sorted. *)
Theorem order_preserved (data : value) (items : list value) :
  valid_document data = true ->
  tree_of data = Some items ->
  exists ui_files,
    extract data = Ok ui_files /\
    keys ui_files = first_seen (filter included (paths_of items)) /\
    json_dumps ui_files =
    match ui_files with
    | [] => "{}"
    | _ :: _ =>
        "{" ++ newline_indent 1
        ++ String.concat separator (map member ui_files)
        ++ newline_indent 0 ++ "}"
    end%string.
Proof.
  intros Hv Ht.
  destruct (valid_document_runs data items Hv Ht) as [out [Hex Hloop]].
  exists out. split; [exact Hex|]. split; [|apply json_dumps_members].
  rewrite (for_loop_keys items [] out Hloop), fold_add_key.
  cbn [keys map app mem existsb negb]. apply filter_all.
Qed.

Lemma order_preserved_witness :
  valid_document (document duplicate_tree) = true /\
  tree_of (document duplicate_tree) = Some duplicate_tree /\
  exists ui_files,
    extract (document duplicate_tree) = Ok ui_files /\
    keys ui_files = first_seen (filter included (paths_of duplicate_tree)) /\
    json_dumps ui_files =
    match ui_files with
    | [] => "{}"
    | _ :: _ =>
        "{" ++ newline_indent 1
        ++ String.concat separator (map member ui_files)
        ++ newline_indent 0 ++ "}"
    end%string.
Proof.
  repeat (split; [reflexivity|]).
  apply (order_preserved (document duplicate_tree) duplicate_tree); reflexivity.
Defined.

(** C6 (all or nothing): every input has a run; no state reached on the way
    has anything on standard output unless the script has finished normally;
    a finished run either printed the complete serialized mapping and raised
    nothing, or raised an exception and printed nothing; in particular a
    matched entry without a [sha] anywhere in [tree] leaves the output
    empty. *)
Theorem all_or_nothing (f : source) :
  (exists m, runs f m) /\
  (forall m, steps (init f) m -> stdout m = ""%string \/ pc m = Exit None) /\
  (forall m, runs f m ->
     (exists ui_files,
         (data <- load f ;; extract data) = Ok ui_files /\
         pc m = Exit None /\
         stdout m = (json_dumps ui_files ++ char newline_char)%string) \/
     (exists e, pc m = Exit (Some e) /\ stdout m = ""%string)) /\
  (forall data items item m,
      f = Parsed data -> tree_of data = Some items ->
      In item items -> is_matched item = true -> entry_sha item = None ->
      runs f m ->
      stdout m = ""%string /\ exists e, pc m = Exit (Some e)).
Proof.
  split; [exists (final (main f)); apply main_runs|].
  split; [intros m Hs; apply (steps_silent (init f) m Hs); reflexivity|].
  split.
  - intros m Hr. rewrite (runs_main f m Hr). unfold main.
    destruct (data <- load f ;; extract data) as [ui_files|e].
    + left. exists ui_files. auto.
    + right. exists e. auto.
  - intros data items item m -> Ht Hin Hm Hs Hr.
    rewrite (runs_main _ m Hr). unfold main. cbn [load bind].
    rewrite (tree_of_extract data items Ht).
    destruct (for_loop_bad_entry items item [] Hin (matched_no_sha_bad item Hm Hs))
      as [e ->].
    split; [reflexivity | exists e; reflexivity].
Qed.

Lemma all_or_nothing_witness :
  runs (Parsed (document broken_tree))
       (final (main (Parsed (document broken_tree)))) /\
  stdout (final (main (Parsed (document broken_tree)))) = ""%string /\
  exists e, pc (final (main (Parsed (document broken_tree)))) = Exit (Some e).
Proof.
  split; [apply main_runs|].
  destruct (all_or_nothing (Parsed (document broken_tree))) as [_ [_ [_ H]]].
  apply (H (document broken_tree) broken_tree
           (PyDict [(lit "path", PyStr (lit "src/lib/utils.ts"))]));
    try reflexivity.
  - right. left. reflexivity.
  - apply main_runs.
Defined.

(** C7 (extra fields do not interfere): two valid documents whose [tree]
    sequences give the same ordered list of (path, sha) pairs produce the same
    mapping and the same output, whatever other fields the entries or the
    documents carry. *)
Theorem extra_fields_ignored (data1 data2 : value) (items1 items2 : list value) :
  valid_document data1 = true ->
  valid_document data2 = true ->
  tree_of data1 = Some items1 ->
  tree_of data2 = Some items2 ->
  map entry_pair items1 = map entry_pair items2 ->
  extract data1 = extract data2 /\ main (Parsed data1) = main (Parsed data2).
Proof.
  intros Hv1 Hv2 Ht1 Ht2 Hpairs.
  assert (Hex : extract data1 = extract data2).
  { rewrite (tree_of_extract data1 items1 Ht1), (tree_of_extract data2 items2 Ht2).
    apply for_loop_view. unfold valid_document in Hv1, Hv2.
    rewrite Ht1 in Hv1. rewrite Ht2 in Hv2.
    apply valid_items_view; assumption. }
  split; [exact Hex|]. unfold main. cbn [load bind]. rewrite Hex. reflexivity.
Qed.

Lemma extra_fields_ignored_witness :
  valid_document (document example_tree) = true /\
  valid_document cluttered_document = true /\
  tree_of (document example_tree) = Some example_tree /\
  tree_of cluttered_document = Some cluttered_tree /\
  map entry_pair example_tree = map entry_pair cluttered_tree /\
  extract (document example_tree) = extract cluttered_document /\
  main (Parsed (document example_tree)) = main (Parsed cluttered_document).
Proof.
  repeat (split; [reflexivity|]).
  apply (extra_fields_ignored (document example_tree) cluttered_document
                              example_tree cluttered_tree); reflexivity.
Defined.

(** C8 (empty input): when [tree] is the empty sequence the output mapping is
    empty, it is serialized as the empty object, and that is what the script
    prints. *)
Theorem empty_tree (data : value) :
  tree_of data = Some [] ->
  extract data = Ok [] /\
  json_dumps [] = "{}"%string /\
  main (Parsed data) =
  {| printed := ("{}" ++ char newline_char)%string; raised := None |}.
Proof.
  intros Ht.
  assert (Hex : extract data = Ok []) by (rewrite (tree_of_extract data [] Ht); reflexivity).
  split; [exact Hex|]. split; [reflexivity|].
  rewrite (main_of_extract data [] Hex). reflexivity.
Qed.

Lemma empty_tree_witness :
  tree_of (document []) = Some [] /\
  extract (document []) = Ok [] /\
  json_dumps [] = "{}"%string /\
  main (Parsed (document [])) =
  {| printed := ("{}" ++ char newline_char)%string; raised := None |}.
Proof.
  split; [reflexivity | apply (empty_tree (document [])); reflexivity].
Defined.

(** C9 (determinism): two complete runs of the script on the same input end
    in the same state, so the text they have printed is the same, byte for
    byte. *)
Theorem run_deterministic (f : source) (m1 m2 : machine) :
  runs f m1 -> runs f m2 -> m1 = m2 /\ stdout m1 = stdout m2.
Proof.
  intros [Hs1 Hh1] [Hs2 Hh2].
  assert (H : m1 = m2) by exact (steps_deterministic _ _ _ Hs1 Hh1 Hs2 Hh2).
  split; [exact H | rewrite H; reflexivity].
Qed.

Lemma run_deterministic_witness :
  runs (Parsed (document [])) (final (main (Parsed (document [])))) /\
  runs (Parsed (document []))
       (at_ (Exit None) ("" ++ json_dumps [] ++ char newline_char)) /\
  final (main (Parsed (document [])))
  = at_ (Exit None) ("" ++ json_dumps [] ++ char newline_char) /\
  stdout (final (main (Parsed (document []))))
  = stdout (at_ (Exit None) ("" ++ json_dumps [] ++ char newline_char)).
Proof.
  assert (H2 : runs (Parsed (document []))
                    (at_ (Exit None) ("" ++ json_dumps [] ++ char newline_char))).
  { split; [|reflexivity].
    eapply steps_cons; [apply step_load; reflexivity|].
    eapply steps_cons; [apply step_for; reflexivity|].
    eapply steps_cons; [apply step_next_done|].
    eapply steps_cons; [apply step_print|]. apply steps_refl. }
  split; [apply main_runs|]. split; [exact H2|].
  apply (run_deterministic (Parsed (document []))
           (final (main (Parsed (document []))))
           (at_ (Exit None) ("" ++ json_dumps [] ++ char newline_char)));
    [apply main_runs | exact H2].
Defined.

(** C10 (sha is asked of matched entries only): when [tree] is a sequence of
    objects that each have a string [path], the mapping is the one the matched
    entries alone give; an entry whose path fails the inclusion rule can be
    replaced by any other such entry, with or without a [sha], or dropped,
    without changing the result; and the run succeeds as soon as the matched
    entries have a [sha]. *)
Theorem sha_only_for_matched (data : value) (items : list value) :
  tree_of data = Some items ->
  forallb has_path items = true ->
  extract data = for_loop (filter is_matched items) [] /\
  (forall before item after item',
      items = before ++ item :: after ->
      is_matched item = false ->
      has_path item' = true -> is_matched item' = false ->
      extract data = extract (document (before ++ item' :: after)) /\
      extract data = extract (document (before ++ after))) /\
  (forallb (fun item => negb (is_matched item) || has_sha item) items = true ->
   exists ui_files,
     extract data = Ok ui_files /\
     main (Parsed data) =
     {| printed := (json_dumps ui_files ++ char newline_char)%string;
        raised := None |}).
Proof.
  intros Ht Hpaths.
  assert (Hex : extract data = for_loop (filter is_matched items) []).
  { rewrite (tree_of_extract data items Ht).
    apply for_loop_matched_only, Hpaths. }
  split; [exact Hex|]. split.
  - intros before item after item' -> Hun Hp' Hun'.
    rewrite Hex. rewrite forallb_app in Hpaths. cbn [forallb] in Hpaths.
    apply andb_true_iff in Hpaths. destruct Hpaths as [Hb Hrest].
    apply andb_true_iff in Hrest. destruct Hrest as [_ Ha].
    rewrite (tree_of_extract (document (before ++ item' :: after))
                             (before ++ item' :: after) eq_refl).
    rewrite (tree_of_extract (document (before ++ after))
                             (before ++ after) eq_refl).
    rewrite (for_loop_matched_only (before ++ item' :: after)),
            (for_loop_matched_only (before ++ after)).
    + rewrite !filter_app. cbn [filter]. rewrite Hun, Hun'. split; reflexivity.
    + rewrite forallb_app, Hb, Ha. reflexivity.
    + rewrite forallb_app. cbn [forallb]. rewrite Hb, Hp', Ha. reflexivity.
  - intros Hsha.
    assert (Hrun : forallb runnable_entry items = true).
    { rewrite forallb_forall in *. intros item Hin.
      rewrite runnable_entry_split, (Hpaths item Hin), (Hsha item Hin).
      reflexivity. }
    destruct (for_loop_runs items [] Hrun) as [out Hout].
    rewrite <- (tree_of_extract data items Ht) in Hout.
    exists out. split; [exact Hout | apply main_of_extract, Hout].
Qed.

Lemma sha_only_for_matched_witness :
  tree_of (document sparse_tree) = Some sparse_tree /\
  forallb has_path sparse_tree = true /\
  forallb (fun item => negb (is_matched item) || has_sha item) sparse_tree = true /\
  exists ui_files,
    extract (document sparse_tree) = Ok ui_files /\
    main (Parsed (document sparse_tree)) =
    {| printed := (json_dumps ui_files ++ char newline_char)%string;
       raised := None |}.
Proof.
  repeat (split; [reflexivity|]).
  apply (sha_only_for_matched (document sparse_tree) sparse_tree); reflexivity.
Defined.

(** * Further properties of the script *)

(** ** Where the bindings come from *)

Lemma In_dict_set (d : dict value) (p k : pystr) (sha v : value) :
  In (k, v) (dict_set d p sha) -> (k = p /\ v = sha) \/ In (k, v) d.
Proof.
  induction d as [|[k0 v0] d IH]; simpl.
  - intros [[= <- <-]|[]]. auto.
  - destruct (str_eqb_reflect k0 p); subst; simpl.
    + intros [[= <- <-]|H]; auto.
    + intros [H|H]; [auto|]. destruct (IH H); auto.
Qed.

Lemma for_loop_bindings (items : list value) (ui_files out : dict value) :
  for_loop items ui_files = Ok out ->
  forall k v, In (k, v) out ->
    In (k, v) ui_files \/
    exists item, In item items /\ entry_path item = Some k /\
                 entry_sha item = Some v /\ included k = true.
Proof.
  revert items ui_files out.
  apply (for_loop_ind (fun items ui_files out =>
    forall k v, In (k, v) out ->
      In (k, v) ui_files \/
      exists item, In item items /\ entry_path item = Some k /\
                   entry_sha item = Some v /\ included k = true)).
  - auto.
  - intros item rest ui_files ui_files' out Hb _ IH k v Hkv.
    apply loop_body_Ok in Hb.
    destruct (IH k v Hkv) as [H|[x [Hx Hrest]]].
    2: { right. exists x. split; [right; exact Hx | exact Hrest]. }
    destruct Hb as [p [Hp [[Hin ->]|[Hin [sha [Hs ->]]]]]]; [auto|].
    apply In_dict_set in H. destruct H as [[-> ->]|H]; [|auto].
    right. exists item. split; [left; reflexivity | auto].
Qed.

(** A run of lines 6 to 10 that does not raise went through a loop, over the
    elements [iter] gave. *)
Lemma extract_Ok (data : value) (out : dict value) :
  extract data = Ok out ->
  exists tree items,
    getitem data (lit "tree") = Ok tree /\ iter tree = Ok items /\
    for_loop items [] = Ok out.
Proof.
  unfold extract.
  destruct (getitem data (lit "tree")) as [tree|]; [|discriminate].
  cbn [bind]. destruct (iter tree) as [items|] eqn:Hi; [|discriminate].
  cbn [bind]. intros H. exists tree, items. auto.
Qed.

(** X1: nothing is invented: whenever the script gets to its mapping, on a valid
    document or not, each binding of the mapping is the path and the sha of an
    entry of [tree], and that path passes the test of line 9. *)
Theorem bindings_from_entries (data : value) (items : list value)
        (ui_files : dict value) (k : pystr) (v : value) :
  tree_of data = Some items ->
  extract data = Ok ui_files ->
  In (k, v) ui_files ->
  exists item, In item items /\ entry_path item = Some k /\
               entry_sha item = Some v /\ included k = true.
Proof.
  intros Ht Hex Hkv. rewrite (tree_of_extract data items Ht) in Hex.
  destruct (for_loop_bindings items [] ui_files Hex k v Hkv) as [[]|H].
  exact H.
Qed.

Lemma bindings_from_entries_witness :
  tree_of (document sparse_tree) = Some sparse_tree /\
  extract (document sparse_tree)
  = Ok [(lit "src/components/ui/button.tsx", PyStr (lit "abc123"))] /\
  exists item, In item sparse_tree /\
               entry_path item = Some (lit "src/components/ui/button.tsx") /\
               entry_sha item = Some (PyStr (lit "abc123")) /\
               included (lit "src/components/ui/button.tsx") = true.
Proof.
  split; [reflexivity|]. split; [reflexivity|].
  apply (bindings_from_entries (document sparse_tree) sparse_tree
           [(lit "src/components/ui/button.tsx", PyStr (lit "abc123"))]);
    [reflexivity | reflexivity | left; reflexivity].
Defined.

(** ** When the loop gets to its end *)

Lemma for_loop_Ok_runnable (items : list value) (ui_files out : dict value) :
  for_loop items ui_files = Ok out -> forallb runnable_entry items = true.
Proof.
  revert items ui_files out.
  apply (for_loop_ind (fun items _ _ => forallb runnable_entry items = true)).
  - reflexivity.
  - intros item rest ui_files ui_files' out Hb _ IH. cbn [forallb].
    rewrite (loop_body_Ok_runnable ui_files ui_files' item Hb), IH. reflexivity.
Qed.

(** X2: on a document whose [tree] is a list, lines 6 to 10 get to a mapping
    exactly when every entry is an object with a string [path] and every
    matched entry has a [sha]. *)
Theorem extract_succeeds_iff (data : value) (items : list value) :
  tree_of data = Some items ->
  (exists ui_files, extract data = Ok ui_files) <->
  forallb runnable_entry items = true.
Proof.
  intros Ht. rewrite (tree_of_extract data items Ht). split.
  - intros [out H]. exact (for_loop_Ok_runnable items [] out H).
  - apply for_loop_runs.
Qed.

Lemma extract_succeeds_iff_witness :
  tree_of (document sparse_tree) = Some sparse_tree /\
  ((exists ui_files, extract (document sparse_tree) = Ok ui_files) <->
   forallb runnable_entry sparse_tree = true).
Proof.
  split; [reflexivity|].
  apply (extract_succeeds_iff (document sparse_tree) sparse_tree). reflexivity.
Defined.

(** ** Which exception, and from which entry *)

Lemma loop_body_bad (ui_files : dict value) (item : value) :
  runnable_entry item = false ->
  loop_body ui_files item = Raise (entry_error item).
Proof.
  unfold runnable_entry, entry_path, entry_sha, loop_body, entry_error.
  destruct item; try reflexivity. cbn [getitem].
  destruct (dict_get fields (lit "path")) as [[]|]; try reflexivity.
  cbn [bind str_method]. destruct (included s); cbn [negb orb]; [|discriminate].
  destruct (dict_get fields (lit "sha")); [discriminate | reflexivity].
Qed.

(** X3: the first entry the loop cannot get past decides the exception, whatever
    comes after it, and nothing is printed: [TypeError] for an element that is
    not an object, [KeyError] on [path] for an object without one,
    [AttributeError] for a [path] that is not a string, [KeyError] on [sha]
    for a matched entry without one. *)
Theorem first_bad_entry_raises (data : value) (before after : list value)
        (bad : value) :
  tree_of data = Some (before ++ bad :: after) ->
  forallb runnable_entry before = true ->
  runnable_entry bad = false ->
  extract data = Raise (entry_error bad) /\
  main (Parsed data) = {| printed := ""; raised := Some (entry_error bad) |}.
Proof.
  intros Ht Hbefore Hbad.
  assert (Hex : extract data = Raise (entry_error bad)).
  { rewrite (tree_of_extract data _ Ht), for_loop_app.
    destruct (for_loop_runs before [] Hbefore) as [ui1 ->]. cbn [bind for_loop].
    rewrite (loop_body_bad ui1 bad Hbad). reflexivity. }
  split; [exact Hex|]. unfold main. cbn [load bind]. rewrite Hex. reflexivity.
Qed.

Lemma first_bad_entry_raises_witness :
  tree_of (document (example_tree ++ PyDict [(lit "path", PyInt 4)] :: broken_tree))
  = Some (example_tree ++ PyDict [(lit "path", PyInt 4)] :: broken_tree) /\
  forallb runnable_entry example_tree = true /\
  runnable_entry (PyDict [(lit "path", PyInt 4)]) = false /\
  extract (document (example_tree ++ PyDict [(lit "path", PyInt 4)] :: broken_tree))
  = Raise AttributeError /\
  main (Parsed (document (example_tree ++ PyDict [(lit "path", PyInt 4)] :: broken_tree)))
  = {| printed := ""; raised := Some AttributeError |}.
Proof.
  repeat (split; [reflexivity|]).
  apply (first_bad_entry_raises
           (document (example_tree ++ PyDict [(lit "path", PyInt 4)] :: broken_tree))
           example_tree broken_tree (PyDict [(lit "path", PyInt 4)]));
    reflexivity.
Defined.

Lemma getitem_raise_kind (x : value) (k : pystr) (e : exn) :
  getitem x k = Raise e -> e = TypeError \/ e = KeyError k.
Proof.
  destruct x; cbn [getitem]; try (intros [= <-]; auto).
  destruct (dict_get fields k); [discriminate | intros [= <-]; auto].
Qed.

Lemma for_loop_raise_kind (items : list value) (ui_files : dict value) (e : exn) :
  for_loop items ui_files = Raise e ->
  e = TypeError \/ e = AttributeError \/
  e = KeyError (lit "path") \/ e = KeyError (lit "sha").
Proof.
  revert ui_files. induction items as [|item rest IH]; intros ui_files;
    cbn [for_loop]; [discriminate|].
  destruct (loop_body ui_files item) as [ui_files'|e0] eqn:Hb; cbn [bind];
    [apply IH|].
  intros [= <-]. unfold loop_body in Hb.
  destruct (getitem item (lit "path")) as [path|e1] eqn:Hpath; cbn [bind] in Hb.
  2: { injection Hb as <-. destruct (getitem_raise_kind _ _ _ Hpath); auto. }
  destruct path; cbn [str_method bind] in Hb;
    try (injection Hb as <-; auto).
  destruct (included s); [|discriminate].
  destruct (getitem item (lit "sha")) as [sha|e2] eqn:Hsha; cbn [bind] in Hb;
    [discriminate|].
  injection Hb as <-. destruct (getitem_raise_kind _ _ _ Hsha); auto.
Qed.

(** X4: lines 6 to 10 raise nothing but a [TypeError], an [AttributeError], or a
    [KeyError] on one of the three keys the script names. *)
Theorem extract_raises_only (data : value) (e : exn) :
  extract data = Raise e ->
  e = TypeError \/ e = AttributeError \/ e = KeyError (lit "tree") \/
  e = KeyError (lit "path") \/ e = KeyError (lit "sha").
Proof.
  unfold extract.
  destruct (getitem data (lit "tree")) as [tree|e0] eqn:Ht; cbn [bind].
  2: { intros [= <-]. destruct (getitem_raise_kind _ _ _ Ht); auto. }
  destruct (iter tree) as [items|e1] eqn:Hi; cbn [bind].
  - intros H. destruct (for_loop_raise_kind items [] e H) as [?|[?|[?|?]]]; auto.
  - intros [= <-]. destruct tree; cbn [iter] in Hi;
      (discriminate || (injection Hi as <-; auto)).
Qed.

Lemma extract_raises_only_witness :
  extract (document broken_tree) = Raise (KeyError (lit "sha")) /\
  (KeyError (lit "sha") = TypeError \/ KeyError (lit "sha") = AttributeError \/
   KeyError (lit "sha") = KeyError (lit "tree") \/
   KeyError (lit "sha") = KeyError (lit "path") \/
   KeyError (lit "sha") = KeyError (lit "sha")).
Proof.
  split; [reflexivity|].
  apply (extract_raises_only (document broken_tree) (KeyError (lit "sha"))).
  reflexivity.
Defined.

(** ** Listings put end to end *)

Lemma dict_set_twice (d : dict value) (p : pystr) (v0 v : value) :
  dict_set (dict_set d p v0) p v = dict_set d p v.
Proof.
  induction d as [|[k1 v1] d IH]; simpl.
  - rewrite str_eqb_refl. reflexivity.
  - destruct (str_eqb_reflect k1 p) as [->|Hne]; simpl.
    + rewrite str_eqb_refl. reflexivity.
    + destruct (str_eqb_reflect k1 p); [contradiction|]. rewrite IH. reflexivity.
Qed.

(** Assigning to a key that is already there commutes with assigning to
    another key. *)
Lemma dict_set_swap (d : dict value) (p k : pystr) (v w : value) :
  In p (keys d) -> k <> p ->
  dict_set (dict_set d k w) p v = dict_set (dict_set d p v) k w.
Proof.
  intros Hin Hne. induction d as [|[k1 v1] d IH]; [destruct Hin|].
  simpl in Hin. cbn [dict_set].
  destruct (str_eqb_reflect k1 k) as [Ek|Hk];
    destruct (str_eqb_reflect k1 p) as [Ep|Hp]; cbn [dict_set].
  - congruence.
  - rewrite (proj2 (str_eqb_neq k1 p) Hp), (proj2 (str_eqb_eq k1 k) Ek).
    reflexivity.
  - rewrite (proj2 (str_eqb_eq k1 p) Ep), (proj2 (str_eqb_neq k1 k) Hk).
    reflexivity.
  - rewrite (proj2 (str_eqb_neq k1 p) Hp), (proj2 (str_eqb_neq k1 k) Hk).
    rewrite IH; [reflexivity|]. destruct Hin; [contradiction | assumption].
Qed.

Lemma update_set_present (d2 d : dict value) (p : pystr) (v : value) :
  ~ In p (keys d2) -> In p (keys d) ->
  dict_set (update d d2) p v = update (dict_set d p v) d2.
Proof.
  revert d. induction d2 as [|[k w] d2 IH]; intros d Hnot Hin; [reflexivity|].
  simpl in Hnot. unfold update in *. cbn [fold_left fst snd].
  rewrite IH.
  - rewrite dict_set_swap; [reflexivity | exact Hin | tauto].
  - tauto.
  - apply In_keys_set. auto.
Qed.

Lemma update_set (d d0 : dict value) (p : pystr) (v : value) :
  NoDup (keys d0) ->
  update d (dict_set d0 p v) = dict_set (update d d0) p v.
Proof.
  revert d. induction d0 as [|[k0 v0] d0 IH]; intros d Hnd; [reflexivity|].
  simpl in Hnd. inversion Hnd as [|? ? Hnotin Hnd']; subst.
  cbn [dict_set]. destruct (str_eqb_reflect k0 p) as [->|Hne].
  - unfold update. cbn [fold_left fst snd]. fold (update (dict_set d p v) d0).
    fold (update (dict_set d p v0) d0).
    rewrite (update_set_present d0 (dict_set d p v0) p v Hnotin).
    + rewrite dict_set_twice. reflexivity.
    + apply In_keys_set. auto.
  - unfold update. cbn [fold_left fst snd].
    exact (IH (dict_set d k0 v0) Hnd').
Qed.

(** The loop started from a mapping [d] does to [d] what it does to what it
    has built, entry after entry. *)
Lemma for_loop_from (d : dict value) (items : list value) (ui_files : dict value) :
  NoDup (keys ui_files) ->
  for_loop items (update d ui_files) =
  match for_loop items ui_files with
  | Ok out => Ok (update d out)
  | Raise e => Raise e
  end.
Proof.
  revert ui_files. induction items as [|item rest IH]; intros ui_files Hnd;
    cbn [for_loop]; [reflexivity|].
  unfold loop_body.
  destruct (getitem item (lit "path")) as [path|e]; cbn [bind]; [|reflexivity].
  destruct (str_method path) as [p|e]; cbn [bind]; [|reflexivity].
  destruct (included p).
  - destruct (getitem item (lit "sha")) as [sha|e]; cbn [bind]; [|reflexivity].
    rewrite <- (update_set d ui_files p sha Hnd).
    apply IH. apply NoDup_keys_set, Hnd.
  - apply IH, Hnd.
Qed.

(** X5: a listing made of two listings end to end: an error in the first is the
    error of the whole, an error in the second is the error of the whole when
    the first has none, and otherwise the mapping of the whole is the mapping
    of the first with the bindings of the mapping of the second assigned into
    it. *)
Theorem extract_app (l1 l2 : list value) :
  extract (document (l1 ++ l2)) =
  match extract (document l1), extract (document l2) with
  | Raise e, _ => Raise e
  | Ok _, Raise e => Raise e
  | Ok out1, Ok out2 => Ok (update out1 out2)
  end.
Proof.
  rewrite (tree_of_extract (document (l1 ++ l2)) (l1 ++ l2) eq_refl).
  rewrite (tree_of_extract (document l1) l1 eq_refl).
  rewrite (tree_of_extract (document l2) l2 eq_refl).
  rewrite for_loop_app.
  destruct (for_loop l1 []) as [out1|e]; cbn [bind]; [|reflexivity].
  apply (for_loop_from out1 l2 []). constructor.
Qed.

(** ** Filtering what has been filtered *)

Lemma dict_set_fresh (d : dict value) (k : pystr) (v : value) :
  ~ In k (keys d) -> dict_set d k v = d ++ [(k, v)].
Proof.
  induction d as [|[k0 v0] d IH]; simpl; [reflexivity|].
  intros H. destruct (str_eqb_reflect k0 k); [tauto|].
  rewrite IH by tauto. reflexivity.
Qed.

Lemma for_loop_as_entries (out ui_files : dict value) :
  NoDup (keys ui_files ++ keys out) ->
  (forall k, In k (keys out) -> included k = true) ->
  for_loop (map as_entry out) ui_files = Ok (ui_files ++ out).
Proof.
  revert ui_files. induction out as [|[k v] out IH]; intros ui_files Hnd Hinc.
  - simpl. rewrite app_nil_r. reflexivity.
  - cbn [map for_loop].
    rewrite (loop_body_matched ui_files (as_entry (k, v)) k v);
      [| reflexivity | apply Hinc; left; reflexivity | reflexivity].
    cbn [bind]. cbn [keys map fst] in Hnd.
    rewrite dict_set_fresh.
    + rewrite IH.
      * rewrite <- app_assoc. reflexivity.
      * unfold keys. rewrite map_app, <- app_assoc. exact Hnd.
      * intros k' Hk'. apply Hinc. right. exact Hk'.
    + apply NoDup_remove_2 in Hnd. intros H. apply Hnd, in_or_app. auto.
Qed.

(** X6: the filter is idempotent: the mapping of any run that gets to one,
    written back as a listing of (path, sha) entries in its order, is mapped
    to itself. *)
Theorem refilter_same (data : value) (ui_files : dict value) :
  extract data = Ok ui_files ->
  extract (document (map as_entry ui_files)) = Ok ui_files.
Proof.
  intros Hex. destruct (extract_Ok data ui_files Hex) as [tree [items [_ [_ Hloop]]]].
  rewrite (tree_of_extract (document (map as_entry ui_files))
                           (map as_entry ui_files) eq_refl).
  apply (for_loop_as_entries ui_files []).
  - apply (for_loop_NoDup items [] ui_files Hloop). constructor.
  - intros k Hk. destruct (for_loop_sound items [] ui_files Hloop k Hk) as [[]|H].
    exact H.
Qed.

Lemma refilter_same_witness :
  extract (document duplicate_tree)
  = Ok [(lit "src/lib/utils.ts", PyStr (lit "3333"));
        (lit "src/components/ui/card.tsx", PyStr (lit "2222"))] /\
  extract (document (map as_entry
             [(lit "src/lib/utils.ts", PyStr (lit "3333"));
              (lit "src/components/ui/card.tsx", PyStr (lit "2222"))]))
  = Ok [(lit "src/lib/utils.ts", PyStr (lit "3333"));
        (lit "src/components/ui/card.tsx", PyStr (lit "2222"))].
Proof.
  split; [reflexivity|].
  apply (refilter_same (document duplicate_tree)). reflexivity.
Defined.

(** ** How much comes out *)

Lemma first_seen_length (l : list pystr) :
  List.length (first_seen l) <= List.length l.
Proof.
  induction l as [|x l IH]; simpl; [apply le_n|].
  apply le_n_S. eapply Nat.le_trans; [apply filter_length_le | exact IH].
Qed.

Lemma matched_paths_length (items : list value) :
  List.length (filter included (paths_of items))
  = List.length (filter is_matched items).
Proof.
  induction items as [|item rest IH]; simpl; [reflexivity|].
  unfold is_matched. destruct (entry_path item) as [p|]; simpl; [|exact IH].
  destruct (included p); simpl; rewrite IH; reflexivity.
Qed.

(** X7: the mapping has at most one binding for each matched entry, and it is
    empty exactly when no entry is matched. *)
Theorem output_size (data : value) (items : list value) (ui_files : dict value) :
  tree_of data = Some items ->
  extract data = Ok ui_files ->
  List.length ui_files <= List.length (filter is_matched items) /\
  (ui_files = [] <-> filter is_matched items = []).
Proof.
  intros Ht Hex. rewrite (tree_of_extract data items Ht) in Hex.
  assert (Hk : keys ui_files = first_seen (filter included (paths_of items))).
  { rewrite (for_loop_keys items [] ui_files Hex), fold_add_key.
    cbn [keys map app mem existsb negb]. apply filter_all. }
  assert (Hlen : List.length ui_files
                 = List.length (first_seen (filter included (paths_of items)))).
  { rewrite <- Hk. unfold keys. symmetry. apply length_map. }
  split.
  - rewrite Hlen, <- matched_paths_length. apply first_seen_length.
  - pose proof (matched_paths_length items) as Hm.
    destruct (filter included (paths_of items)) as [|x l]; simpl in Hlen, Hm.
    + symmetry in Hm. apply length_zero_iff_nil in Hlen, Hm.
      rewrite Hlen, Hm. tauto.
    + split; intros H; rewrite H in *; discriminate.
Qed.

Lemma output_size_witness :
  tree_of (document duplicate_tree) = Some duplicate_tree /\
  extract (document duplicate_tree)
  = Ok [(lit "src/lib/utils.ts", PyStr (lit "3333"));
        (lit "src/components/ui/card.tsx", PyStr (lit "2222"))] /\
  2 <= List.length (filter is_matched duplicate_tree).
Proof.
  split; [reflexivity|]. split; [reflexivity|].
  apply (output_size (document duplicate_tree) duplicate_tree
           [(lit "src/lib/utils.ts", PyStr (lit "3333"));
            (lit "src/components/ui/card.tsx", PyStr (lit "2222"))]);
    reflexivity.
Defined.

(** ** What the printed text is made of *)

Lemma all_chars_app (P : ascii -> bool) (s t : string) :
  all_chars P (s ++ t) = all_chars P s && all_chars P t.
Proof.
  induction s as [|a s IH]; simpl; [reflexivity|].
  rewrite IH, andb_assoc. reflexivity.
Qed.

Lemma all_chars_weaken (P Q : ascii -> bool) (s : string) :
  (forall a, P a = true -> Q a = true) ->
  all_chars P s = true -> all_chars Q s = true.
Proof.
  intros HPQ. induction s as [|a s IH]; simpl; [reflexivity|].
  rewrite !andb_true_iff. intros [Ha Hs]. auto.
Qed.

Lemma hex_digit_printable (n : N) : printable (hex_digit n) = true.
Proof.
  unfold hex_digit. generalize (N.to_nat n) as m. intros m.
  do 17 (destruct m as [|m]; [reflexivity|]). reflexivity.
Qed.

Lemma escape_u_printable (n : N) : all_chars printable (escape_u n) = true.
Proof.
  unfold escape_u. cbn [append all_chars].
  rewrite !hex_digit_printable. reflexivity.
Qed.

Lemma escape_char_printable (c : N) : all_chars printable (escape_char c) = true.
Proof.
  unfold escape_char.
  repeat match goal with
    | |- context [(c =? ?k)%N] => destruct (c =? k)%N; [reflexivity|]
    end.
  destruct ((32 <=? c) && (c <=? 126))%N eqn:Hrange.
  - cbn [char all_chars]. unfold printable. rewrite N_ascii_embedding.
    + rewrite Hrange. reflexivity.
    + apply andb_true_iff in Hrange. destruct Hrange as [_ Hle].
      apply N.leb_le in Hle. eapply N.le_lt_trans; [exact Hle | reflexivity].
  - destruct (c <? 65536)%N; [apply escape_u_printable|].
    cbv zeta. rewrite all_chars_app, !escape_u_printable. reflexivity.
Qed.

Lemma escaped_printable (s : pystr) :
  all_chars printable (String.concat "" (map escape_char s)) = true.
Proof.
  induction s as [|c s IH]; [reflexivity|].
  cbn [map]. destruct s as [|c' s].
  - apply escape_char_printable.
  - cbn [map] in *. rewrite concat_cons, !all_chars_app.
    rewrite escape_char_printable, IH. reflexivity.
Qed.

Lemma encode_printable (s : pystr) :
  all_chars printable (encode_basestring_ascii s) = true.
Proof.
  unfold encode_basestring_ascii.
  rewrite !all_chars_app, escaped_printable. reflexivity.
Qed.


Lemma newline_indent_ok (level : nat) :
  all_chars printable_or_newline (newline_indent level) = true.
Proof.
  unfold newline_indent. cbn [all_chars].
  induction level as [|level IH]; [reflexivity | exact IH].
Qed.

Lemma encoded_string_ok (s : pystr) :
  all_chars printable_or_newline (encode_basestring_ascii s) = true.
Proof.
  apply (all_chars_weaken printable).
  - intros a Ha. unfold printable_or_newline. rewrite Ha. reflexivity.
  - apply encode_printable.
Qed.

Lemma member_ok (k s : pystr) :
  all_chars printable_or_newline (member (k, PyStr s)) = true.
Proof.
  unfold member. cbn [fst snd iterencode].
  rewrite !all_chars_app, !encoded_string_ok. reflexivity.
Qed.

Lemma more_members_ok (l : dict value) :
  (forall k v, In (k, v) l -> exists s, v = PyStr s) ->
  all_chars printable_or_newline (more_members l) = true.
Proof.
  induction l as [|[k v] l IH]; intros Hstr; [reflexivity|].
  cbn [more_members]. destruct (Hstr k v (or_introl eq_refl)) as [s ->].
  rewrite !all_chars_app, member_ok, IH.
  - reflexivity.
  - intros k' v' H. apply (Hstr k' v'). right. exact H.
Qed.

Lemma json_dumps_ok (ui_files : dict value) :
  (forall k v, In (k, v) ui_files -> exists s, v = PyStr s) ->
  all_chars printable_or_newline (json_dumps ui_files) = true.
Proof.
  intros Hstr. destruct ui_files as [|[k v] l]; [reflexivity|].
  unfold json_dumps. rewrite iterencode_dict.
  destruct (Hstr k v (or_introl eq_refl)) as [s ->].
  rewrite !all_chars_app, member_ok, more_members_ok, !newline_indent_ok.
  - reflexivity.
  - intros k' v' H. apply (Hstr k' v'). right. exact H.
Qed.

(** X10: on a valid document the script prints printable ASCII and line feeds and
    nothing else, whatever characters the paths and hashes hold. *)
Theorem printed_ascii (data : value) :
  valid_document data = true ->
  raised (main (Parsed data)) = None /\
  all_chars printable_or_newline (printed (main (Parsed data))) = true.
Proof.
  intros Hv. destruct (valid_document_tree data Hv) as [items [Ht Hall]].
  destruct (valid_document_runs data items Hv Ht) as [out [Hex Hloop]].
  rewrite (main_of_extract data out Hex). cbn [printed raised].
  split; [reflexivity|]. rewrite all_chars_app, json_dumps_ok; [reflexivity|].
  intros k v Hkv.
  destruct (for_loop_bindings items [] out Hloop k v Hkv) as [[]|[item [Hin [_ [Hs _]]]]].
  rewrite forallb_forall in Hall. specialize (Hall item Hin).
  unfold valid_entry in Hall. rewrite Hs in Hall.
  destruct (entry_path item); [|discriminate].
  destruct v; try discriminate. eauto.
Qed.

Lemma printed_ascii_witness :
  valid_document exotic_document = true /\
  raised (main (Parsed exotic_document)) = None /\
  all_chars printable_or_newline (printed (main (Parsed exotic_document))) = true.
Proof.
  split; [reflexivity | apply (printed_ascii exotic_document); reflexivity].
Defined.

(** ** One binding, one line *)

Lemma count_char_app (c : ascii) (s t : string) :
  count_char c (s ++ t) = count_char c s + count_char c t.
Proof.
  induction s as [|a s IH]; simpl; [reflexivity|].
  rewrite IH, Nat.add_assoc. reflexivity.
Qed.

Lemma printable_no_newline (s : string) :
  all_chars printable s = true -> count_char newline_char s = 0.
Proof.
  induction s as [|a s IH]; simpl; [reflexivity|].
  rewrite andb_true_iff. intros [Ha Hs]. rewrite (IH Hs).
  destruct (Ascii.eqb_spec a newline_char) as [->|]; [discriminate | reflexivity].
Qed.

Lemma newline_indent_count (level : nat) :
  count_char newline_char (newline_indent level) = 1.
Proof.
  unfold newline_indent. cbn [count_char]. rewrite Ascii.eqb_refl.
  induction level as [|level IH]; [reflexivity | exact IH].
Qed.

Lemma member_count (k s : pystr) :
  count_char newline_char (member (k, PyStr s)) = 0.
Proof.
  unfold member. cbn [fst snd iterencode]. rewrite !count_char_app.
  rewrite (printable_no_newline (encode_basestring_ascii k)),
          (printable_no_newline (encode_basestring_ascii s))
    by apply encode_printable.
  reflexivity.
Qed.

Lemma more_members_count (l : dict value) :
  (forall k v, In (k, v) l -> exists s, v = PyStr s) ->
  count_char newline_char (more_members l) = List.length l.
Proof.
  induction l as [|[k v] l IH]; intros Hstr; [reflexivity|].
  cbn [more_members]. destruct (Hstr k v (or_introl eq_refl)) as [s ->].
  unfold separator. rewrite !count_char_app, member_count, newline_indent_count, IH.
  - reflexivity.
  - intros k' v' H. apply (Hstr k' v'). right. exact H.
Qed.

(** X11: on a valid document every binding is printed on a line of its own,
    between a line for the opening brace and a line for the closing one: the
    text holds as many line feeds as the mapping has bindings, and two more;
    an empty mapping is printed on one line. *)
Theorem printed_lines (data : value) :
  valid_document data = true ->
  exists ui_files,
    extract data = Ok ui_files /\
    count_char newline_char (printed (main (Parsed data))) =
    match ui_files with
    | [] => 1
    | _ :: _ => List.length ui_files + 2
    end.
Proof.
  intros Hv. destruct (valid_document_tree data Hv) as [items [Ht Hall]].
  destruct (valid_document_runs data items Hv Ht) as [out [Hex Hloop]].
  exists out. split; [exact Hex|].
  rewrite (main_of_extract data out Hex). cbn [printed].
  assert (Hstr : forall k v, In (k, v) out -> exists s, v = PyStr s).
  { intros k v Hkv.
    destruct (for_loop_bindings items [] out Hloop k v Hkv)
      as [[]|[item [Hin [_ [Hs _]]]]].
    rewrite forallb_forall in Hall. specialize (Hall item Hin).
    unfold valid_entry in Hall. rewrite Hs in Hall.
    destruct (entry_path item); [|discriminate].
    destruct v; try discriminate. eauto. }
  destruct out as [|[k v] l]; [reflexivity|].
  unfold json_dumps. rewrite iterencode_dict.
  destruct (Hstr k v (or_introl eq_refl)) as [s ->].
  rewrite !count_char_app, member_count, more_members_count, !newline_indent_count.
  - simpl. lia.
  - intros k' v' H. apply (Hstr k' v'). right. exact H.
Qed.

Lemma printed_lines_witness :
  valid_document exotic_document = true /\
  exists ui_files,
    extract exotic_document = Ok ui_files /\
    count_char newline_char (printed (main (Parsed exotic_document))) =
    match ui_files with
    | [] => 1
    | _ :: _ => List.length ui_files + 2
    end.
Proof.
  split; [reflexivity | apply (printed_lines exotic_document); reflexivity].
Defined.

(** ** Without repeated paths *)

Lemma for_loop_distinct (items : list value) (ui_files : dict value) :
  forallb runnable_entry items = true ->
  NoDup (keys ui_files ++ paths_of (filter is_matched items)) ->
  for_loop items ui_files
  = Ok (ui_files ++ bindings_of (filter is_matched items)).
Proof.
  revert ui_files. induction items as [|item rest IH]; intros ui_files Hrun Hnd.
  - simpl. rewrite app_nil_r. reflexivity.
  - cbn [forallb] in Hrun. apply andb_true_iff in Hrun. destruct Hrun as [Hr Hrest].
    cbn [filter for_loop] in *. unfold is_matched in *. unfold runnable_entry in Hr.
    destruct (entry_path item) as [p|] eqn:Hp; [|discriminate].
    destruct (included p) eqn:Hin.
    + destruct (entry_sha item) as [sha|] eqn:Hs; [|discriminate].
      rewrite (loop_body_matched ui_files item p sha Hp Hin Hs). cbn [bind].
      cbn [paths_of bindings_of] in *. unfold entry_pair. rewrite Hp in *.
      rewrite Hs. rewrite dict_set_fresh.
      * rewrite IH; [rewrite <- app_assoc; reflexivity | exact Hrest |].
        unfold keys. rewrite map_app, <- app_assoc. exact Hnd.
      * apply NoDup_remove_2 in Hnd. intros H. apply Hnd, in_or_app. auto.
    + rewrite (loop_body_skipped ui_files item p Hp Hin). cbn [bind].
      apply IH; assumption.
Qed.

(** X8: when no matched path comes twice, the mapping is the listing itself,
    filtered and projected: the (path, sha) pairs of the matched entries, in
    the order of the listing. *)
Theorem extract_filter_project (data : value) (items : list value) :
  tree_of data = Some items ->
  forallb runnable_entry items = true ->
  NoDup (paths_of (filter is_matched items)) ->
  extract data = Ok (bindings_of (filter is_matched items)).
Proof.
  intros Ht Hrun Hnd. rewrite (tree_of_extract data items Ht).
  exact (for_loop_distinct items [] Hrun Hnd).
Qed.

Lemma extract_filter_project_witness :
  tree_of (document sparse_tree) = Some sparse_tree /\
  forallb runnable_entry sparse_tree = true /\
  NoDup (paths_of (filter is_matched sparse_tree)) /\
  extract (document sparse_tree)
  = Ok (bindings_of (filter is_matched sparse_tree)).
Proof.
  split; [reflexivity|]. split; [reflexivity|].
  assert (Hnd : NoDup (paths_of (filter is_matched sparse_tree))).
  { repeat constructor. intros []. }
  split; [exact Hnd|].
  apply (extract_filter_project (document sparse_tree) sparse_tree);
    [reflexivity | reflexivity | exact Hnd].
Defined.
